(** * gerbv-vis: a shallow embedding of [gerbv_vis.py]

    The script scans a directory for Gerber and drill files, groups them by
    project and layer, writes one gerbv project file per copper layer and
    drives the external [gerbv] binary on each of them.

    Python values are modelled as follows.
    - [str] is [string]; file names are taken to be made of ASCII characters,
      so that [\w] is [[A-Za-z0-9_]], [\d] is [[0-9]] and [str.lower] only
      moves [A-Z].
    - [int] is [Z].
    - [dict] is an association list kept in insertion order ([Dict]): the
      driver iterates over [all_gerbers.items()], so the order is observable.
    - [re.match] is a backtracking matcher ([Re]) with the greedy, leftmost
      search order of Python's engine.
    - The file object [fp] is the list of strings passed to [fp.write],
      together with the list of [write_layer] calls made so far.
    - Exceptions are a result type; the state survives a raise, as the
      partly written file does.  Failures of the operating system when a
      file is opened or written are not modelled; a renderer process that
      cannot be started is. *)

From Stdlib Require Import String Ascii List ZArith NArith Lia Bool.
From Stdlib Require Import Sorting.Sorted Sorting.Permutation DecimalString.
Import ListNotations.

Open Scope string_scope.

(* ------------------------------------------------------------------------- *)
(** ** Characters and strings *)

Definition LF : ascii := "010"%char.
Definition TAB : ascii := "009"%char.
Definition DQUOTE : ascii := "034"%char.

Definition chr (c : ascii) : string := String c EmptyString.
Definition nl : string := chr LF.
Definition tab : string := chr TAB.
Definition dq : string := chr DQUOTE.

Definition in_range (lo hi c : ascii) : bool :=
  (N_of_ascii lo <=? N_of_ascii c)%N && (N_of_ascii c <=? N_of_ascii hi)%N.

Definition is_digit (c : ascii) : bool := in_range "0" "9" c.
Definition is_upper (c : ascii) : bool := in_range "A" "Z" c.
Definition is_lower (c : ascii) : bool := in_range "a" "z" c.

(** [\w] *)
Definition is_word (c : ascii) : bool :=
  is_lower c || is_upper c || is_digit c || Ascii.eqb c "_".

(** [.] without DOTALL: anything but a line feed *)
Definition is_dot (c : ascii) : bool := negb (Ascii.eqb c LF).

Definition one_of (cs : string) (c : ascii) : bool :=
  existsb (Ascii.eqb c) (list_ascii_of_string cs).

Definition lower_char (c : ascii) : ascii :=
  if is_upper c then ascii_of_N (N_of_ascii c + 32) else c.

(** [str.lower] *)
Fixpoint lower (s : string) : string :=
  match s with
  | EmptyString => EmptyString
  | String c s' => String (lower_char c) (lower s')
  end.

(** ["{}".format(n)] for an integer [n] *)
Definition str_of_Z (n : Z) : string := NilZero.string_of_int (Z.to_int n).

(** [s.startswith(t)] *)
Definition startswith (s t : string) : bool := String.prefix t s.

(** [s.endswith(t)] *)
Fixpoint endswith (s t : string) : bool :=
  String.eqb s t ||
  match s with
  | EmptyString => false
  | String _ s' => endswith s' t
  end.

(** [l.append(x)] *)
Definition snoc {A : Type} (l : list A) (x : A) : list A := (l ++ [x])%list.

(** the first [n] characters of [s] *)
Fixpoint take (n : nat) (s : string) : string :=
  match n, s with
  | S n', String c s' => String c (take n' s')
  | _, _ => EmptyString
  end.

(** [s.replace(old, new)] for a non-empty [old]: occurrences are replaced
    from left to right and do not overlap.  [skip] counts the characters of
    an occurrence still to be passed over. *)
Fixpoint replace_from (old new : string) (skip : nat) (s : string) : string :=
  match s with
  | EmptyString => EmptyString
  | String c s' =>
      match skip with
      | S n => replace_from old new n s'
      | O =>
          if String.prefix old s
          then new ++ replace_from old new (String.length old - 1) s'
          else String c (replace_from old new 0 s')
      end
  end.

Definition replace (s old new : string) : string := replace_from old new 0 s.

(* ------------------------------------------------------------------------- *)
(** ** Regular expressions *)

Module Re.

(** The fragment of Python's [re] syntax the script uses.  Repetition is
    only ever applied to a single-character item. *)
Inductive regex : Type :=
| Class (p : ascii -> bool)      (* one character: a literal, [.], [\w], [[tb]] *)
| Many (p : ascii -> bool)       (* greedy [*] over a one-character item *)
| Seq (r1 r2 : regex)
| Alt (r1 r2 : regex)            (* [r1|r2], left branch first *)
| Group (n : nat) (r : regex)    (* capturing group number [n] *)
| Eol.                           (* [$] *)

Definition Chr (c : ascii) : regex := Class (Ascii.eqb c).
(** greedy [+] *)
Definition Many1 (p : ascii -> bool) : regex := Seq (Class p) (Many p).

Definition groups : Type := list (nat * string).

(** Greedy repetition: take as many characters as possible, and give one
    back at a time as long as the rest of the pattern fails. *)
Fixpoint many (p : ascii -> bool) (s : string)
         (k : string -> option groups) : option groups :=
  match s with
  | String c s' =>
      if p c
      then match many p s' k with
           | Some g => Some g
           | None => k s
           end
      else k s
  | EmptyString => k s
  end.

(** [$] without MULTILINE: the end of the string, or just before a line
    feed that ends the string *)
Definition at_eol (s : string) : bool :=
  match s with
  | EmptyString => true
  | String c EmptyString => Ascii.eqb c LF
  | _ => false
  end.

(** what was read between the input [s] and its suffix [s'] *)
Definition consumed (s s' : string) : string :=
  take (String.length s - String.length s') s.

(** [run r s g k]: match [r] at the start of [s] with captures [g] so far,
    then hand the rest of the input to the continuation [k]; backtrack
    into [r] when [k] fails. *)
Fixpoint run (r : regex) (s : string) (g : groups)
         (k : string -> groups -> option groups) : option groups :=
  match r with
  | Class p =>
      match s with
      | String c s' => if p c then k s' g else None
      | EmptyString => None
      end
  | Many p => many p s (fun s' => k s' g)
  | Seq r1 r2 => run r1 s g (fun s' g' => run r2 s' g' k)
  | Alt r1 r2 =>
      match run r1 s g k with
      | Some g' => Some g'
      | None => run r2 s g k
      end
  | Group n r1 => run r1 s g (fun s' g' => k s' ((n, consumed s s') :: g'))
  | Eol => if at_eol s then k s g else None
  end.

(** [re.match(r, s)]: anchored at the start, the end is free *)
Definition re_match (r : regex) (s : string) : option groups :=
  run r s [] (fun _ g => Some g).

(** [match.group(n)] for a group that took part in the match *)
Fixpoint group (m : groups) (n : nat) : string :=
  match m with
  | [] => EmptyString
  | (i, s) :: m' => if Nat.eqb i n then s else group m' n
  end.

End Re.

Import Re.

(** The pattern that splits a file name into project, layer and extension.
    The dot before the extension is not escaped in the source, so it stands
    for any character but a line feed. *)
Definition file_regex_source : string := "(.*)-(\w+).(\w+)$".

Definition file_regex : regex :=
  Seq (Group 1 (Many is_dot))
 (Seq (Chr "-")
 (Seq (Group 2 (Many1 is_word))
 (Seq (Class is_dot)
 (Seq (Group 3 (Many1 is_word))
      Eol)))).

(** The pattern of the recognised extensions. *)
Definition ext_regex_source : string := "g[tb][opsl]|g\d+|gm\d+|drl".

Definition ext_regex : regex :=
  Alt (Seq (Chr "g") (Seq (Class (one_of "tb")) (Class (one_of "opsl"))))
 (Alt (Seq (Chr "g") (Many1 is_digit))
 (Alt (Seq (Chr "g") (Seq (Chr "m") (Many1 is_digit)))
      (Seq (Chr "d") (Seq (Chr "r") (Chr "l"))))).

(* ------------------------------------------------------------------------- *)
(** ** Dictionaries *)

Module Dict.
Section WithValues.
Context {V : Type}.

(** bindings in insertion order, one per key *)
Definition t : Type := list (string * V).

Definition empty : t := [].

Fixpoint get (d : t) (k : string) : option V :=
  match d with
  | [] => None
  | (k', v) :: d' => if String.eqb k k' then Some v else get d' k
  end.

(** [k in d] *)
Definition contains (d : t) (k : string) : bool :=
  match get d k with
  | Some _ => true
  | None => false
  end.

(** [d[k] = v]: an existing key keeps its place, a new one goes last *)
Fixpoint set (d : t) (k : string) (v : V) : t :=
  match d with
  | [] => [(k, v)]
  | (k', v') :: d' =>
      if String.eqb k k' then (k, v) :: d' else (k', v') :: set d' k v
  end.

Definition keys (d : t) : list string := map fst d.
End WithValues.
Arguments t : clear implicits.
End Dict.

(* ------------------------------------------------------------------------- *)
(** ** Paths and sorting *)

Fixpoint has_char (c : ascii) (s : string) : bool :=
  match s with
  | EmptyString => false
  | String c' s' => Ascii.eqb c c' || has_char c s'
  end.

(** [os.path.join(a, b)] on a POSIX system *)
Definition path_join (a b : string) : string :=
  if startswith b "/" then b
  else if String.eqb a EmptyString || endswith a "/" then a ++ b
  else a ++ "/" ++ b.

(** [os.path.basename(p)]: what follows the last slash *)
Fixpoint basename (p : string) : string :=
  match p with
  | EmptyString => EmptyString
  | String c p' =>
      if has_char "/" p' then basename p'
      else if Ascii.eqb c "/" then p' else p
  end.

(** [sorted(l)] for a list of strings: ascending code point order.  Equal
    strings are identical, so every sorting algorithm returns the same list;
    insertion sort is used here. *)
Fixpoint insert (x : string) (l : list string) : list string :=
  match l with
  | [] => [x]
  | y :: l' => if String.leb x y then x :: l else y :: insert x l'
  end.

Fixpoint sorted (l : list string) : list string :=
  match l with
  | [] => []
  | x :: l' => insert x (sorted l')
  end.

(** [range(lo, hi)] *)
Definition range (lo hi : nat) : list Z := map Z.of_nat (seq lo (hi - lo)).

(* ------------------------------------------------------------------------- *)
(** ** The classifier: [find_gerber_files] *)

(** One turn of the loop over the directory entries.  The state is the
    dictionary built so far and the lines printed so far. *)
Definition find_step (path : string)
           (st : Dict.t (Dict.t string) * list string) (file : string)
  : Dict.t (Dict.t string) * list string :=
  let '(gerbers, out) := st in
  match re_match file_regex file with
  | None => st
  | Some m =>
      let project := group m 1 in
      let layer := group m 2 in
      let ext := lower (group m 3) in
      match re_match ext_regex ext with
      | None => st
      | Some _ =>
          let out := snoc out ("Found '" ++ file ++ "'") in
          let gerbers :=
            if Dict.contains gerbers project then gerbers
            else Dict.set gerbers project Dict.empty in
          match Dict.get gerbers project with
          | Some layers =>
              (Dict.set gerbers project
                        (Dict.set layers layer (path_join path file)), out)
          | None => (gerbers, out) (* not reached: the key is present *)
          end
      end
  end.

(** [listing] is what [os.listdir(path)] returns. *)
Definition find_gerber_files_out (path : string) (listing : list string)
  : Dict.t (Dict.t string) * list string :=
  fold_left (find_step path) (sorted listing) (Dict.empty, []).

Definition find_gerber_files (path : string) (listing : list string)
  : Dict.t (Dict.t string) :=
  fst (find_gerber_files_out path listing).

(* ------------------------------------------------------------------------- *)
(** ** Exceptions and state *)

Inductive exn : Type :=
| KeyError (key : string)
| IndexError
| OSError.

Inductive result (A : Type) : Type :=
| Ok (a : A)
| Raise (e : exn).
Arguments Ok {A} a.
Arguments Raise {A} e.

(** A computation over a state [S] that may raise; the state reached at the
    raise is kept. *)
Definition M (S A : Type) : Type := S -> result A * S.

Definition ret {S A : Type} (a : A) : M S A := fun st => (Ok a, st).

Definition bind {S A B : Type} (m : M S A) (f : A -> M S B) : M S B :=
  fun st =>
    match m st with
    | (Ok a, st') => f a st'
    | (Raise e, st') => (Raise e, st')
    end.

Definition raise {S A : Type} (e : exn) : M S A := fun st => (Raise e, st).

Declare Scope monad_scope.
Delimit Scope monad_scope with monad.
Notation "x <- m ;; k" := (bind m (fun x => k))
  (at level 61, m at next level, right associativity) : monad_scope.
Notation "m ;; k" := (bind m (fun _ => k))
  (at level 61, right associativity) : monad_scope.
Open Scope monad_scope.

(** [for x in xs: acc = body(x, acc)] *)
Fixpoint for_in {S X A : Type} (xs : list X) (body : X -> A -> M S A) (acc : A)
  : M S A :=
  match xs with
  | [] => ret acc
  | x :: xs' => acc' <- body x acc ;; for_in xs' body acc'
  end.

(** [d[k]] *)
Definition getitem {S V : Type} (d : Dict.t V) (k : string) : M S V :=
  match Dict.get d k with
  | Some v => ret v
  | None => raise (KeyError k)
  end.

(** [s[0]] *)
Definition first_char {S : Type} (s : string) : M S string :=
  match s with
  | String c _ => ret (chr c)
  | EmptyString => raise IndexError
  end.

(* ------------------------------------------------------------------------- *)
(** ** The composer: [generate_gerbv_project] *)

(** a colour as the source has it: red, green, blue, alpha, each 0..255 *)
Definition rgba : Type := (Z * Z * Z * Z)%type.

Module COLORS.
Definition board : rgba := (51, 43, 22, 255)%Z.
Definition copper : rgba := (179, 156, 0, 255)%Z.
Definition soldermask : rgba := (20, 51, 36, 200)%Z.
Definition silkscreen : rgba := (230, 230, 230, 255)%Z.
Definition paste : rgba := (128, 128, 128, 255)%Z.
End COLORS.

Definition black : rgba := (0, 0, 0, 255)%Z.

(** the arguments of one call of [write_layer] *)
Record layer_block : Type := mk_block {
  file_name : string;
  idx : Z;
  color : rgba;
  is_inverted : bool
}.

(** The open file: what has been written, one entry per [fp.write], and the
    [write_layer] calls that wrote it. *)
Record fp_state : Type := mk_fp {
  written : list string;
  blocks : list layer_block
}.

Definition fp_open : fp_state := mk_fp [] [].

Definition fp_write (s : string) : M fp_state unit :=
  fun st => (Ok tt, mk_fp (snoc (written st) s) (blocks st)).

Definition note_block (b : layer_block) : M fp_state unit :=
  fun st => (Ok tt, mk_fp (written st) (snoc (blocks st) b)).

(** [[x * 256 for x in color[:3]]] *)
Definition scale3 (c : rgba) : Z * Z * Z :=
  let '(r, g, b, _) := c in (r * 256, g * 256, b * 256)%Z.

Definition alpha_of (c : rgba) : Z := let '(_, _, _, a) := c in a.

(** the three scaled channels, formatted with single blanks between them *)
Definition fmt3 (c : Z * Z * Z) : string :=
  let '(r, g, b) := c in
  str_of_Z r ++ " " ++ str_of_Z g ++ " " ++ str_of_Z b.

Definition write_layer (file_name : string) (idx : Z) (color : rgba)
           (is_inverted : bool) : M fp_state unit :=
  note_block (mk_block file_name idx color is_inverted) ;;
  fp_write ("(define-layer! " ++ str_of_Z idx ++ " (cons 'filename "
            ++ dq ++ file_name ++ dq ++ ")" ++ nl) ;;
  (if is_inverted
   then fp_write (tab ++ "(cons 'inverted #t)" ++ nl)
   else ret tt) ;;
  let _color := scale3 color in
  let _alpha := (alpha_of color * 256)%Z in
  fp_write (tab ++ "(cons 'visible #t)" ++ nl) ;;
  fp_write (tab ++ "(cons 'color #(" ++ fmt3 _color ++ "))" ++ nl) ;;
  fp_write (tab ++ "(cons 'alpha #(" ++ str_of_Z _alpha ++ "))" ++ nl) ;;
  fp_write (")" ++ nl).

Definition prologue : string :=
  "(gerbv-file-version! " ++ dq ++ "2.0A" ++ dq ++ ")" ++ nl.

(** the body of the [with open(file, "w") as fp] block *)
Definition gvp_body (gerbers : Dict.t string) (layer : string)
           (show_paste : bool) : M fp_state unit :=
  let layer_idx := 0%Z in
  (* Prologue *)
  fp_write prologue ;;
  (* Board outline *)
  layer_idx <-
    (if Dict.contains gerbers "Edge_Cuts"
     then f <- getitem gerbers "Edge_Cuts" ;;
          write_layer f layer_idx black false ;;
          ret (layer_idx + 1)%Z
     else ret layer_idx) ;;
  (* Drill layers *)
  layer_idx <-
    for_in ["PTH"; "NPTH"]
      (fun l layer_idx =>
         if Dict.contains gerbers l
         then f <- getitem gerbers l ;;
              write_layer f layer_idx black false ;;
              ret (layer_idx + 1)%Z
         else ret layer_idx)
      layer_idx ;;
  (* For top and bottom overlay mask/paste/silkscreen *)
  layer_idx <-
    (if existsb (String.eqb layer) ["F_Cu"; "B_Cu"]
     then
       prefix <- first_char layer ;;
       (* Paste *)
       let l := prefix ++ "_Paste" in
       layer_idx <-
         (if Dict.contains gerbers l && show_paste
          then f <- getitem gerbers l ;;
               write_layer f layer_idx COLORS.paste false ;;
               ret (layer_idx + 1)%Z
          else ret layer_idx) ;;
       (* Silkscreen *)
       let l := prefix ++ "_Silkscreen" in
       layer_idx <-
         (if Dict.contains gerbers l
          then f <- getitem gerbers l ;;
               write_layer f layer_idx COLORS.silkscreen false ;;
               ret (layer_idx + 1)%Z
          else ret layer_idx) ;;
       (* Soldermask *)
       let l := prefix ++ "_Mask" in
       (if Dict.contains gerbers l
        then f <- getitem gerbers l ;;
             write_layer f layer_idx COLORS.soldermask true ;;
             ret (layer_idx + 1)%Z
        else ret layer_idx)
     else ret layer_idx) ;;
  (* Copper layer *)
  f <- getitem gerbers layer ;;
  write_layer f layer_idx COLORS.copper false ;;
  let layer_idx := (layer_idx + 1)%Z in
  (* Epilogue *)
  let bk_color := scale3 COLORS.board in
  fp_write ("(define-layer! -1 (cons 'filename " ++ dq ++ dq ++ ")" ++ nl) ;;
  fp_write (tab ++ "(cons 'color #(" ++ fmt3 bk_color ++ "))" ++ nl) ;;
  fp_write (")" ++ nl) ;;
  fp_write ("(set-render-type! 3)" ++ nl).

(** The files the program has written: path to contents. *)
Definition filesystem : Type := Dict.t string.

(** [open(file, "w")] creates or truncates [file]; whatever the body wrote
    before returning or raising is what the file holds afterwards. *)
Definition generate_gerbv_project (file : string) (gerbers : Dict.t string)
           (layer : string) (show_paste : bool)
  : M filesystem unit :=
  fun fs =>
    let '(r, fp) := gvp_body gerbers layer show_paste fp_open in
    (r, Dict.set fs file (String.concat EmptyString (written fp))).

(* ------------------------------------------------------------------------- *)
(** ** The driver: [main] *)

(** the parsed command line *)
Record args : Type := mk_args {
  path : string;
  format : string;
  dpi : Z;
  output : option string;
  gerbv : string;
  show_paste : bool
}.

(** What the process has done so far: the files it wrote, the lines it
    printed and the renderer command lines it ran. *)
Record world : Type := mk_world {
  fs : filesystem;
  stdout : list string;
  spawned : list (list string)
}.

Definition world0 : world := mk_world Dict.empty [] [].

Definition print (s : string) : M world unit :=
  fun w => (Ok tt, mk_world (fs w) (snoc (stdout w) s) (spawned w)).

Definition with_fs {A : Type} (m : M filesystem A) : M world A :=
  fun w =>
    let '(r, fs') := m (fs w) in
    (r, mk_world fs' (stdout w) (spawned w)).

(** The external renderer: the exit code of the n-th process started, given
    its command line, or [None] when the process cannot be started. *)
Definition renderer : Type := nat -> list string -> option Z.

(** [p = subprocess.Popen(argv, ...); p.wait(); p.returncode] *)
Definition popen_wait (run : renderer) (argv : list string) : M world Z :=
  fun w =>
    match run (List.length (spawned w)) argv with
    | Some code =>
        (Ok code, mk_world (fs w) (stdout w) (snoc (spawned w) argv))
    | None => (Raise OSError, w)
    end.

(** the helper closure of the project loop *)
Definition write_gvp (a : args) (project : string) (gerbers : Dict.t string)
           (layer_id layer_name : string) : M world string :=
  let file_name := project ++ "-" ++ layer_name ++ ".gvp" in
  print ("Writing '" ++ file_name ++ "'") ;;
  let file_name := path_join (path a) file_name in
  with_fs (generate_gerbv_project file_name gerbers layer_id (show_paste a)) ;;
  ret file_name.

(** one turn of [for project, gerbers in all_gerbers.items()] *)
Definition compose_project (a : args) (item : string * Dict.t string)
           (gvp_files : list string) : M world (list string) :=
  let '(project, gerbers) := item in
  (* Top *)
  gvp_files <-
    (if Dict.contains gerbers "F_Cu"
     then f <- write_gvp a project gerbers "F_Cu" "top" ;;
          ret (snoc gvp_files f)
     else ret gvp_files) ;;
  (* Bottom *)
  gvp_files <-
    (if Dict.contains gerbers "B_Cu"
     then f <- write_gvp a project gerbers "B_Cu" "bot" ;;
          ret (snoc gvp_files f)
     else ret gvp_files) ;;
  (* Intermediate layers *)
  for_in (range 2 32)
    (fun i gvp_files =>
       let layer_id := "In" ++ str_of_Z (i - 1) ++ "_Cu" in
       let layer_name := "in" ++ str_of_Z (i - 1) in
       if Dict.contains gerbers layer_id
       then f <- write_gvp a project gerbers layer_id layer_name ;;
            ret (snoc gvp_files f)
       else ret gvp_files)
    gvp_files.

(** one turn of [for gvp_file in gvp_files] *)
Definition render (a : args) (run : renderer) (gvp_file : string) (_ : unit)
  : M world unit :=
  let img_file := replace gvp_file ".gvp" ("." ++ format a) in
  let img_file :=
    match output a with
    | Some o => path_join o (basename img_file)
    | None => img_file
    end in
  let gvb_args :=
    [ gerbv a;
      "--dpi=" ++ str_of_Z (dpi a);
      "--antialias";
      "--export=" ++ format a;
      "--project=" ++ gvp_file;
      "--output=" ++ img_file ] in
  print ("Generating '" ++ basename img_file ++ "' ...") ;;
  (* Invoke Gerbv *)
  returncode <- popen_wait run gvb_args ;;
  if negb (Z.eqb returncode 0)
  then print (" ERROR! Gerbv failed with " ++ str_of_Z returncode ++ "!")
  else ret tt.

(** the project loop of [main]: the list [gvp_files] it builds *)
Definition compose_all (a : args) (all_gerbers : Dict.t (Dict.t string))
  : M world (list string) :=
  for_in all_gerbers (compose_project a) [].

(** [listing] is the content of the scanned directory, [run] the behaviour
    of the renderer binary. *)
Definition main (a : args) (listing : list string) (run : renderer)
  : M world unit :=
  (* Find gerber files *)
  let '(all_gerbers, found) := find_gerber_files_out (path a) listing in
  for_in found (fun line _ => print line) tt ;;
  (* Generate gerbv projects *)
  gvp_files <- compose_all a all_gerbers ;;
  (* Use Gerbv to visualize PCBs *)
  for_in gvp_files (render a run) tt.

(** The exit status of the interpreter: 0 when [main] returns, 1 when an
    exception reaches the top level. *)
Definition exit_status {A : Type} (r : result A) : Z :=
  match r with
  | Ok _ => 0%Z
  | Raise _ => 1%Z
  end.

(* ------------------------------------------------------------------------- *)
(** ** Vocabulary of the statements *)

(** A candidate layer of the stack: the key looked up in the mapping, the
    colour and the inversion flag it is drawn with. *)
Definition candidate : Type := (string * rgba * bool)%type.

(** the overlay candidates of a top or bottom copper layer *)
Definition overlay_plan (layer : string) (show_paste : bool) : list candidate :=
  if existsb (String.eqb layer) ["F_Cu"; "B_Cu"]
  then
    let prefix := take 1 layer in
    List.app
      (if show_paste then [(prefix ++ "_Paste", COLORS.paste, false)] else [])
      [(prefix ++ "_Silkscreen", COLORS.silkscreen, false);
       (prefix ++ "_Mask", COLORS.soldermask, true)]
  else [].

(** the context candidates in stacking order *)
Definition context_plan (layer : string) (show_paste : bool) : list candidate :=
  List.app
    [("Edge_Cuts", black, false); ("PTH", black, false); ("NPTH", black, false)]
    (overlay_plan layer show_paste).

(** the candidates the mapping has a file for, with that file *)
Fixpoint select (gerbers : Dict.t string) (plan : list candidate)
  : list candidate :=
  match plan with
  | [] => []
  | (key, c, inv) :: plan' =>
      match Dict.get gerbers key with
      | Some f => (f, c, inv) :: select gerbers plan'
      | None => select gerbers plan'
      end
  end.

(** consecutive stacking indices from [i] on *)
Fixpoint number (i : Z) (l : list candidate) : list layer_block :=
  match l with
  | [] => []
  | (f, c, inv) :: l' => mk_block f i c inv :: number (i + 1) l'
  end.

(** what one call of [write_layer] writes *)
Definition block_text (b : layer_block) : list string :=
  written (snd (write_layer (file_name b) (idx b) (color b) (is_inverted b)
                            fp_open)).

Definition blocks_text (bs : list layer_block) : list string :=
  flat_map block_text bs.

(** the background pseudo-layer and the render mode *)
Definition epilogue : list string :=
  [ "(define-layer! -1 (cons 'filename " ++ dq ++ dq ++ ")" ++ nl;
    tab ++ "(cons 'color #(" ++ fmt3 (scale3 COLORS.board) ++ "))" ++ nl;
    ")" ++ nl;
    "(set-render-type! 3)" ++ nl ].

(** the layer blocks of a composition, in emission order *)
Definition composed_blocks (gerbers : Dict.t string) (layer : string)
           (show_paste : bool) : list layer_block :=
  blocks (snd (gvp_body gerbers layer show_paste fp_open)).

(** a block without its stacking index *)
Definition unnumbered (b : layer_block) : candidate :=
  (file_name b, color b, is_inverted b).

Definition is_paste (b : layer_block) : bool :=
  let '(r, g, bl, a) := color b in
  let '(r', g', bl', a') := COLORS.paste in
  (r =? r')%Z && (g =? g')%Z && (bl =? bl')%Z && (a =? a')%Z.

(** the first line of a layer block *)
Definition layer_header (idx : Z) (file_name : string) : string :=
  "(define-layer! " ++ str_of_Z idx ++ " (cons 'filename "
  ++ dq ++ file_name ++ dq ++ ")" ++ nl.

(** the line that carries the inversion flag *)
Definition inverted_line : string := tab ++ "(cons 'inverted #t)" ++ nl.

(** the indices 0, 1, ..., n-1 *)
Definition upto (n : nat) : list Z := map Z.of_nat (seq 0 n).

(** the stack of the fully populated top side *)
Definition full_stack (e p n pa s m c : string) : list layer_block :=
  [ mk_block e 0 black false;
    mk_block p 1 black false;
    mk_block n 2 black false;
    mk_block pa 3 COLORS.paste false;
    mk_block s 4 COLORS.silkscreen false;
    mk_block m 5 COLORS.soldermask true;
    mk_block c 6 COLORS.copper false ].

(** the text of a complete project file with the blocks [bs] *)
Definition gvp_text (bs : list layer_block) : string :=
  String.concat EmptyString (prologue :: List.app (blocks_text bs) epilogue).

(** a candidate is drawn inverted exactly when it has the soldermask colour *)
Definition mask_only (x : candidate) : Prop :=
  snd x = true <-> snd (fst x) = COLORS.soldermask.

Definition paste_candidate (x : candidate) : bool :=
  is_paste (mk_block (fst (fst x)) 0 (snd (fst x)) (snd x)).

Definition not_paste (b : layer_block) : bool := negb (is_paste b).

(** a mapping used in the examples *)
Definition demo_gerbers : Dict.t string :=
  [ ("Edge_Cuts", "d/p-Edge_Cuts.gm1"); ("PTH", "d/p-PTH.drl");
    ("NPTH", "d/p-NPTH.drl"); ("F_Cu", "d/p-F_Cu.gtl");
    ("F_Paste", "d/p-F_Paste.gtp"); ("F_Silkscreen", "d/p-F_Silkscreen.gto");
    ("F_Mask", "d/p-F_Mask.gts"); ("B_Cu", "d/p-B_Cu.gbl") ].

(** every character of [s] satisfies [p] *)
Fixpoint all (p : ascii -> bool) (s : string) : bool :=
  match s with
  | EmptyString => true
  | String c s' => p c && all p s'
  end.

(** [sem r s rest g]: the expression [r] can read [s] when [rest] follows,
    capturing [g] (latest capture first).  This is what a match means,
    apart from the order in which the matcher tries the alternatives. *)
Inductive sem : regex -> string -> string -> groups -> Prop :=
| sem_class p c rest :
    p c = true -> sem (Class p) (chr c) rest []
| sem_many p s rest :
    all p s = true -> sem (Many p) s rest []
| sem_seq r1 r2 s1 s2 rest g1 g2 :
    sem r1 s1 (s2 ++ rest) g1 -> sem r2 s2 rest g2 ->
    sem (Seq r1 r2) (s1 ++ s2) rest (List.app g2 g1)
| sem_alt_l r1 r2 s rest g :
    sem r1 s rest g -> sem (Alt r1 r2) s rest g
| sem_alt_r r1 r2 s rest g :
    sem r2 s rest g -> sem (Alt r1 r2) s rest g
| sem_group n r s rest g :
    sem r s rest g -> sem (Group n r) s rest ((n, s) :: g)
| sem_eol rest :
    at_eol rest = true -> sem Eol EmptyString rest [].

(** The decision of the loop body of [find_gerber_files]: the project and
    layer a file name is stored under, if it is stored at all. *)
Definition classify (file : string) : option (string * string) :=
  match re_match file_regex file with
  | None => None
  | Some m =>
      match re_match ext_regex (lower (group m 3)) with
      | None => None
      | Some _ => Some (group m 1, group m 2)
      end
  end.

(** the dictionary update of the loop body *)
Definition add_file (gerbers : Dict.t (Dict.t string))
           (project layer file_path : string) : Dict.t (Dict.t string) :=
  let gerbers :=
    if Dict.contains gerbers project then gerbers
    else Dict.set gerbers project Dict.empty in
  match Dict.get gerbers project with
  | Some layers => Dict.set gerbers project (Dict.set layers layer file_path)
  | None => gerbers
  end.

(** [gerbers[project][layer]], if both keys are there *)
Definition lookup2 (gerbers : Dict.t (Dict.t string)) (project layer : string)
  : option string :=
  match Dict.get gerbers project with
  | Some layers => Dict.get layers layer
  | None => None
  end.

(** the order [sorted] sorts by *)
Definition le (a b : string) : Prop := String.leb a b = true.

(** The copper layers the driver looks for in each project, with the
    display names of their project files: top, bottom and the thirty inner
    layers [In1_Cu] to [In30_Cu]. *)
Definition inspected_layers : list (string * string) :=
  ("F_Cu", "top") :: ("B_Cu", "bot") ::
  map (fun i => ("In" ++ str_of_Z (i - 1) ++ "_Cu", "in" ++ str_of_Z (i - 1)))
      (range 2 32).

(** the name and the path of the project file of a project and layer *)
Definition gvp_name (project layer_name : string) : string :=
  project ++ "-" ++ layer_name ++ ".gvp".

Definition gvp_path (a : args) (project layer_name : string) : string :=
  path_join (path a) (gvp_name project layer_name).

(** the inspected layers a project has a file for *)
Definition project_jobs (gerbers : Dict.t string) : list (string * string) :=
  filter (fun j => Dict.contains gerbers (fst j)) inspected_layers.

(** a project file to write: its path and its text *)
Definition gvp_write (a : args) (project : string) (gerbers : Dict.t string)
           (j : string * string) : string * string :=
  (gvp_path a project (snd j),
   gvp_text (composed_blocks gerbers (fst j) (show_paste a))).

(** what one successful call of [write_gvp] does to the world *)
Definition write_effect (a : args) (project : string) (gerbers : Dict.t string)
           (w : world) (j : string * string) : world :=
  mk_world (Dict.set (fs w) (fst (gvp_write a project gerbers j))
                     (snd (gvp_write a project gerbers j)))
           (snoc (stdout w) ("Writing '" ++ gvp_name project (snd j) ++ "'"))
           (spawned w).

Definition project_effect (a : args) (w : world)
           (item : string * Dict.t string) : world :=
  fold_left (write_effect a (fst item) (snd item)) (project_jobs (snd item)) w.

(** the (project, display name) pairs of all project files, in order *)
Definition all_jobs (all_gerbers : Dict.t (Dict.t string))
  : list (string * string) :=
  flat_map (fun item => map (fun j => (fst item, snd j))
                            (project_jobs (snd item)))
           all_gerbers.

(** the project files to write, in order *)
Definition all_writes (a : args) (all_gerbers : Dict.t (Dict.t string))
  : list (string * string) :=
  flat_map (fun item => map (gvp_write a (fst item) (snd item))
                            (project_jobs (snd item)))
           all_gerbers.

(** the loop body of the inner-layer loop, on a (layer id, name) pair *)
Definition compose_layer (a : args) (project : string)
           (gerbers : Dict.t string) (j : string * string)
           (gvp_files : list string) : M world (list string) :=
  if Dict.contains gerbers (fst j)
  then f <- write_gvp a project gerbers (fst j) (snd j) ;;
       ret (snoc gvp_files f)
  else ret gvp_files.

(** what [path_join] puts in front of a relative name *)
Definition join_prefix (a : string) : string :=
  if String.eqb a EmptyString || endswith a "/" then a else a ++ "/".

Definition plain_name (n : string) : bool :=
  negb (has_char "/" n) && negb (has_char "-" (n ++ ".gvp"))
  && negb (has_char "/" ("-" ++ n ++ ".gvp")).

(** the command line of the renderer for a project file *)
Definition image_path (a : args) (gvp_file : string) : string :=
  let img_file := replace gvp_file ".gvp" ("." ++ format a) in
  match output a with
  | Some o => path_join o (basename img_file)
  | None => img_file
  end.

Definition render_argv (a : args) (gvp_file : string) : list string :=
  [ gerbv a;
    "--dpi=" ++ str_of_Z (dpi a);
    "--antialias";
    "--export=" ++ format a;
    "--project=" ++ gvp_file;
    "--output=" ++ image_path a gvp_file ].

Definition error_line (code : Z) : string :=
  " ERROR! Gerbv failed with " ++ str_of_Z code ++ "!".

(** what the render loop prints when the n-th and later processes run *)
Fixpoint render_log (a : args) (run : renderer) (n : nat)
         (gvp_files : list string) : list string :=
  match gvp_files with
  | [] => []
  | f :: rest =>
      ("Generating '" ++ basename (image_path a f) ++ "' ...")
        :: List.app
             (match run n (render_argv a f) with
              | Some code =>
                  if negb (Z.eqb code 0) then [error_line code] else []
              | None => []
              end)
             (render_log a run (S n) rest)
  end.

(** the project files the driver composes, in order *)
Definition gvp_files (a : args) (listing : list string) : list string :=
  map (fun pj => gvp_path a (fst pj) (snd pj))
      (all_jobs (find_gerber_files (path a) listing)).

(** the inputs of the examples *)
Definition demo_args : args :=
  mk_args "d" "png" 300 None "/usr/local/bin/gerbv" false.

Definition demo_listing : list string :=
  [ "p-F_Cu.gtl"; "p-B_Cu.gbl"; "p-In1_Cu.g2"; "p-F_Mask.gts";
    "q-F_Cu.gtl"; "readme.txt" ].

(** a renderer whose first process exits with code 2 *)
Definition demo_run : renderer :=
  fun n _ => if Nat.eqb n 0 then Some 2%Z else Some 0%Z.

(** a dictionary after the assignments [d[k] = v] of a list, in order *)
Definition set_all (d : filesystem) (kvs : list (string * string))
  : filesystem :=
  fold_left (fun d kv => Dict.set d (fst kv) (snd kv)) kvs d.

(** the entries the classifier stores *)
Definition accepted (file : string) : bool :=
  match classify file with
  | Some _ => true
  | None => false
  end.

(** the directory of the examples after the project files were written *)
Definition demo_listing_after : list string :=
  List.app demo_listing ["p-top.gvp"; "p-bot.gvp"; "p-in1.gvp"; "q-top.gvp"].

(** one or more digits *)
Definition digits1 (s : string) : bool :=
  negb (String.eqb s EmptyString) && all is_digit s.

(** The whitelist of extensions in the words of the specification: [g], one
    of [t], [b] and one of [o], [p], [s], [l]; or [g] and one or more
    digits; or [gm] and one or more digits; or [drl]; nothing before or
    after. *)
Definition spec_whitelist (ext : string) : bool :=
  match ext with
  | String c rest =>
      if Ascii.eqb c "g"
      then match rest with
           | String side (String kind EmptyString) =>
               one_of "tb" side && one_of "opsl" kind
           | _ => false
           end
           || digits1 rest
           || match rest with
              | String m ds => Ascii.eqb m "m" && digits1 ds
              | EmptyString => false
              end
      else String.eqb ext "drl"
  | EmptyString => false
  end.

Definition not_dash (c : ascii) : bool := negb (Ascii.eqb c "-").

(** the line printed for a stored entry *)
Definition found_line (file : string) : string := "Found '" ++ file ++ "'".

(** [s] starts with an extension of the whitelist *)
Definition whitelisted_prefix (s : string) : Prop :=
  exists w tail, s = w ++ tail /\ spec_whitelist w = true.

(** the keys [generate_gerbv_project] looks up for a target layer *)
Definition consulted_keys (layer : string) : list string :=
  List.app ["Edge_Cuts"; "PTH"; "NPTH"; layer]
    (if existsb (String.eqb layer) ["F_Cu"; "B_Cu"]
     then [take 1 layer ++ "_Paste"; take 1 layer ++ "_Silkscreen";
           take 1 layer ++ "_Mask"]
     else []).

(** the key of a candidate *)
Definition key_of (x : candidate) : string := fst (fst x).

(** the mapping sends distinct keys among [ks] to distinct files *)
Definition distinct_files (g : Dict.t string) (ks : list string) : Prop :=
  forall k1 k2 f,
    In k1 ks -> In k2 ks ->
    Dict.get g k1 = Some f -> Dict.get g k2 = Some f -> k1 = k2.

(** a dot directly followed by a [g] occurs in [s] *)
Fixpoint has_dot_g (s : string) : bool :=
  match s with
  | EmptyString => false
  | String c s' =>
      (Ascii.eqb c "." &&
       match s' with
       | String c' _ => Ascii.eqb c' "g"
       | EmptyString => false
       end)
      || has_dot_g s'
  end.

(** a renderer that cannot be started the second time *)
Definition demo_run_missing : renderer :=
  fun n _ => if Nat.eqb n 1 then None else Some 0%Z.

(* ------------------------------------------------------------------------- *)
(** * Properties *)

(** ** Dictionaries *)

Lemma get_set_same {V : Type} (d : Dict.t V) k v :
  Dict.get (Dict.set d k v) k = Some v.
Proof.
  induction d as [|[k' v'] d IH]; simpl.
  - now rewrite String.eqb_refl.
  - destruct (String.eqb k k') eqn:E; simpl.
    + now rewrite String.eqb_refl.
    + now rewrite E.
Qed.

Lemma get_set_other {V : Type} (d : Dict.t V) k k' v :
  k' <> k -> Dict.get (Dict.set d k v) k' = Dict.get d k'.
Proof.
  intros Hne. induction d as [|[k0 v0] d IH]; simpl.
  - apply String.eqb_neq in Hne. now rewrite Hne.
  - destruct (String.eqb k k0) eqn:E; simpl.
    + apply String.eqb_eq in E. subst k0.
      apply String.eqb_neq in Hne. now rewrite Hne.
    + now rewrite IH.
Qed.

(** ** The composer *)

Lemma write_layer_run f i c inv st :
  write_layer f i c inv st =
  (Ok tt, mk_fp (List.app (written st) (block_text (mk_block f i c inv)))
                (snoc (blocks st) (mk_block f i c inv))).
Proof.
  unfold block_text, write_layer, bind, note_block, fp_write, ret, snoc.
  destruct inv; simpl; rewrite <- ?app_assoc; reflexivity.
Qed.

(** Symbolic execution of the body: reduce the monad, replace each
    [write_layer] call by its effect, split on the next lookup. *)
Ltac run_step :=
  cbv beta iota delta
      [bind ret raise fp_write for_in first_char chr append
       andb select app existsb orb take String.eqb Ascii.eqb Bool.eqb];
  rewrite ?write_layer_run;
  repeat match goal with
         | |- context [Dict.get ?g ?k] => destruct (Dict.get g k)
         end.

(** The body emits, in order, the context candidates the mapping has a file
    for and then the target layer; it raises at the target lookup when the
    target is missing. *)
Lemma gvp_body_run gerbers layer show_paste :
  gvp_body gerbers layer show_paste fp_open =
  let ctx := select gerbers (context_plan layer show_paste) in
  match Dict.get gerbers layer with
  | Some f =>
      let bs := number 0 (List.app ctx [(f, COLORS.copper, false)]) in
      (Ok tt, mk_fp (prologue :: List.app (blocks_text bs) epilogue) bs)
  | None =>
      let bs := number 0 ctx in
      (Raise (KeyError layer), mk_fp (prologue :: blocks_text bs) bs)
  end.
Proof.
  unfold gvp_body, context_plan, overlay_plan, Dict.contains, getitem.
  destruct (String.eqb layer "F_Cu") eqn:EF;
    [apply String.eqb_eq in EF; subst layer|
     destruct (String.eqb layer "B_Cu") eqn:EB;
     [apply String.eqb_eq in EB; subst layer|]].
  - destruct show_paste; repeat run_step; reflexivity.
  - destruct show_paste; repeat run_step; reflexivity.
  - cbn [existsb orb]. rewrite EF, EB. repeat run_step; reflexivity.
Qed.

Lemma composed_blocks_eq gerbers layer show_paste :
  composed_blocks gerbers layer show_paste =
  number 0 (List.app (select gerbers (context_plan layer show_paste))
                     (match Dict.get gerbers layer with
                      | Some f => [(f, COLORS.copper, false)]
                      | None => []
                      end)).
Proof.
  unfold composed_blocks. rewrite gvp_body_run.
  destruct (Dict.get gerbers layer); cbn [snd blocks];
    rewrite ?app_nil_r; reflexivity.
Qed.

Lemma number_length i l : List.length (number i l) = List.length l.
Proof.
  revert i. induction l as [|[[f c] inv] l IH]; intros i; simpl; auto.
Qed.

Lemma number_idx i l :
  map idx (number i l) =
  map (fun k => (i + Z.of_nat k)%Z) (seq 0 (List.length l)).
Proof.
  revert i. induction l as [|[[f c] inv] l IH]; intros i; simpl.
  - reflexivity.
  - rewrite Z.add_0_r. f_equal. rewrite IH, <- seq_shift, map_map.
    apply map_ext. intros k. lia.
Qed.

Lemma number_unnumbered i l : map unnumbered (number i l) = l.
Proof.
  revert i. induction l as [|[[f c] inv] l IH]; intros i; simpl.
  - reflexivity.
  - unfold unnumbered at 1. simpl. now rewrite IH.
Qed.

Lemma number_app i l1 l2 :
  number i (List.app l1 l2) =
  List.app (number i l1) (number (i + Z.of_nat (List.length l1)) l2).
Proof.
  revert i. induction l1 as [|[[f c] inv] l1 IH]; intros i.
  - simpl. now rewrite Z.add_0_r.
  - cbn [app number List.length]. rewrite IH. do 3 f_equal. lia.
Qed.

Lemma In_number b i l : In b (number i l) -> In (unnumbered b) l.
Proof.
  intros H. rewrite <- (number_unnumbered i l). now apply in_map.
Qed.

Lemma In_select g x plan :
  In x (select g plan) ->
  exists key, In (key, snd (fst x), snd x) plan /\
              Dict.get g key = Some (fst (fst x)).
Proof.
  induction plan as [|[[key c] inv] plan IH]; simpl; [tauto|].
  destruct (Dict.get g key) eqn:E.
  - intros [<- | H].
    + exists key. simpl. auto.
    + destruct (IH H) as (k & Hin & Hk). eauto.
  - intros H. destruct (IH H) as (k & Hin & Hk). eauto.
Qed.

Lemma generate_gerbv_project_run file gerbers layer show_paste fs :
  generate_gerbv_project file gerbers layer show_paste fs =
  (fst (gvp_body gerbers layer show_paste fp_open),
   Dict.set fs file
     (String.concat EmptyString
        (written (snd (gvp_body gerbers layer show_paste fp_open))))).
Proof.
  unfold generate_gerbv_project.
  now destruct (gvp_body gerbers layer show_paste fp_open).
Qed.

Lemma context_plan_mask_only layer show_paste :
  Forall mask_only (context_plan layer show_paste).
Proof.
  unfold context_plan, overlay_plan.
  destruct (existsb (String.eqb layer) ["F_Cu"; "B_Cu"]), show_paste;
    repeat constructor; unfold mask_only; simpl; intros; discriminate.
Qed.

Lemma select_mask_only g plan :
  Forall mask_only plan -> Forall mask_only (select g plan).
Proof.
  induction 1 as [|[[key c] inv] plan Hx Hp IH]; simpl.
  - constructor.
  - destruct (Dict.get g key); auto.
Qed.

Lemma overlay_has_mask g side paste_flag m :
  side = "F" \/ side = "B" ->
  Dict.get g (side ++ "_Mask") = Some m ->
  In (m, COLORS.soldermask, true)
     (select g (context_plan (side ++ "_Cu") paste_flag)).
Proof.
  intros [-> | ->] Hm; unfold context_plan, overlay_plan;
    cbv [existsb String.eqb Ascii.eqb Bool.eqb orb take append app];
    destruct paste_flag; cbn [select];
    repeat match goal with
           | |- context [Dict.get g ?k] =>
               lazymatch k with
               | "F_Mask" => fail
               | "B_Mask" => fail
               | _ => destruct (Dict.get g k)
               end
           end; cbn in Hm |- *; rewrite Hm; simpl; auto 10.
Qed.

Lemma block_text_inverted b :
  In inverted_line (block_text b) <-> is_inverted b = true.
Proof.
  destruct b as [f i c inv]. unfold block_text, write_layer, inverted_line.
  destruct inv; cbn; split; intros H; auto; try discriminate.
  repeat destruct H as [H | H]; try discriminate; contradiction.
Qed.

Lemma number_In f c inv l i :
  In (f, c, inv) l -> exists j, In (mk_block f j c inv) (number i l).
Proof.
  revert i. induction l as [|[[f' c'] inv'] l IH]; intros i; simpl; [tauto|].
  intros [E | H].
  - inversion E; subst. exists i. now left.
  - destruct (IH (i + 1)%Z H) as [j Hj]. exists j. now right.
Qed.

Lemma inverted_candidate layer show_paste key c :
  In (key, c, true) (context_plan layer show_paste) ->
  exists side, (side = "F" \/ side = "B") /\ layer = side ++ "_Cu"
               /\ key = side ++ "_Mask".
Proof.
  unfold context_plan, overlay_plan. cbn [existsb orb].
  destruct (String.eqb layer "F_Cu") eqn:EF;
    [apply String.eqb_eq in EF; subst layer|
     destruct (String.eqb layer "B_Cu") eqn:EB;
     [apply String.eqb_eq in EB; subst layer|]];
    destruct show_paste; cbn; intros H;
    repeat destruct H as [H | H]; try discriminate; try contradiction;
    inversion H; subst; [exists "F" | exists "F" | exists "B" | exists "B"];
    auto.
Qed.

Lemma overlay_has_paste g side pa :
  side = "F" \/ side = "B" ->
  Dict.get g (side ++ "_Paste") = Some pa ->
  In (pa, COLORS.paste, false)
     (select g (context_plan (side ++ "_Cu") true)).
Proof.
  intros [-> | ->] Hm; unfold context_plan, overlay_plan;
    cbv [existsb String.eqb Ascii.eqb Bool.eqb orb take append app];
    cbn [select];
    repeat match goal with
           | |- context [Dict.get g ?k] =>
               lazymatch k with
               | "F_Paste" => fail
               | "B_Paste" => fail
               | _ => destruct (Dict.get g k)
               end
           end; cbn in Hm |- *; rewrite Hm; simpl; auto 10.
Qed.

Lemma inverted_is_mask gerbers layer show_paste b :
  In b (composed_blocks gerbers layer show_paste) ->
  is_inverted b = true ->
  exists side, (side = "F" \/ side = "B") /\ layer = side ++ "_Cu"
               /\ Dict.get gerbers (side ++ "_Mask") = Some (file_name b).
Proof.
  intros Hb Hinv. rewrite composed_blocks_eq in Hb. apply In_number in Hb.
  apply in_app_or in Hb. destruct Hb as [Hb | Hb].
  - apply In_select in Hb. destruct Hb as (key & Hplan & Hget).
    unfold unnumbered in Hplan, Hget. cbn [fst snd] in Hplan, Hget.
    rewrite Hinv in Hplan. apply inverted_candidate in Hplan.
    destruct Hplan as (side & Hside & Hlayer & Hkey). subst key. eauto.
  - destruct (Dict.get gerbers layer); simpl in Hb; [|tauto].
    destruct Hb as [Hb | []]. unfold unnumbered in Hb.
    inversion Hb. congruence.
Qed.

Lemma select_filter g plan :
  select g (filter (fun x => negb (paste_candidate x)) plan) =
  filter (fun x => negb (paste_candidate x)) (select g plan).
Proof.
  induction plan as [|[[key c] inv] plan IH]; simpl; [reflexivity|].
  change (paste_candidate (key, c, inv)) with
    (is_paste (mk_block key 0 c inv)).
  destruct (is_paste (mk_block key 0 c inv)) eqn:E; simpl.
  - destruct (Dict.get g key); simpl; auto.
    change (paste_candidate (s, c, inv)) with (is_paste (mk_block s 0 c inv)).
    unfold is_paste in *. simpl in *. now rewrite E.
  - destruct (Dict.get g key); simpl; auto.
    change (paste_candidate (s, c, inv)) with (is_paste (mk_block s 0 c inv)).
    unfold is_paste in *. simpl in *. rewrite E. simpl. now rewrite IH.
Qed.

Lemma context_plan_without_paste layer :
  context_plan layer false =
  filter (fun x => negb (paste_candidate x)) (context_plan layer true).
Proof.
  unfold context_plan, overlay_plan.
  destruct (existsb (String.eqb layer) ["F_Cu"; "B_Cu"]); reflexivity.
Qed.

Lemma filter_unnumbered i l :
  map unnumbered (filter not_paste (number i l)) =
  filter (fun x => negb (paste_candidate x)) l.
Proof.
  revert i. induction l as [|[[f c] inv] l IH]; intros i; simpl; [reflexivity|].
  unfold not_paste at 1, paste_candidate at 1.
  change (is_paste (mk_block f i c inv)) with (is_paste (mk_block f 0 c inv)).
  simpl. destruct (is_paste (mk_block f 0 c inv)); simpl; rewrite IH; auto.
Qed.

(** C2: with the outline, both drill files and the four top-side files in
    the mapping, composing the top copper layer with the paste flag set
    emits the seven blocks outline, PTH, NPTH, paste, silkscreen, soldermask,
    copper, numbered 0 to 6, and then the epilogue.  For every mapping that
    holds the target, the target's copper block is the last block and the
    file is complete. *)
Theorem full_stack_order :
  (forall gerbers e p n c pa s m file fs,
      Dict.get gerbers "Edge_Cuts" = Some e ->
      Dict.get gerbers "PTH" = Some p ->
      Dict.get gerbers "NPTH" = Some n ->
      Dict.get gerbers "F_Cu" = Some c ->
      Dict.get gerbers "F_Paste" = Some pa ->
      Dict.get gerbers "F_Silkscreen" = Some s ->
      Dict.get gerbers "F_Mask" = Some m ->
      composed_blocks gerbers "F_Cu" true = full_stack e p n pa s m c
      /\ generate_gerbv_project file gerbers "F_Cu" true fs =
         (Ok tt, Dict.set fs file (gvp_text (full_stack e p n pa s m c))))
  /\ (forall gerbers target show_paste f file fs,
        Dict.get gerbers target = Some f ->
        exists context,
          composed_blocks gerbers target show_paste =
          List.app context
            [mk_block f (Z.of_nat (List.length context)) COLORS.copper false]
          /\ generate_gerbv_project file gerbers target show_paste fs =
             (Ok tt,
              Dict.set fs file
                (gvp_text (composed_blocks gerbers target show_paste)))).
Proof.
  split.
  - intros gerbers e p n c pa s m file fs He Hp Hn Hc Hpa Hs Hm.
    assert (Hb : composed_blocks gerbers "F_Cu" true = full_stack e p n pa s m c).
    { rewrite composed_blocks_eq.
      cbv [context_plan overlay_plan existsb String.eqb Ascii.eqb Bool.eqb
           orb take append app select].
      rewrite He, Hp, Hn, Hc, Hpa, Hs, Hm. reflexivity. }
    split; [exact Hb|].
    rewrite generate_gerbv_project_run, <- Hb.
    unfold composed_blocks. rewrite gvp_body_run, Hc. reflexivity.
  - intros gerbers target show_paste f file fs Hf.
    exists (number 0 (select gerbers (context_plan target show_paste))).
    split.
    + rewrite composed_blocks_eq, Hf, number_app, number_length. reflexivity.
    + rewrite generate_gerbv_project_run. unfold composed_blocks.
      rewrite gvp_body_run, Hf. reflexivity.
Qed.

Lemma full_stack_order_witness :
  composed_blocks demo_gerbers "F_Cu" true =
  full_stack "d/p-Edge_Cuts.gm1" "d/p-PTH.drl" "d/p-NPTH.drl" "d/p-F_Paste.gtp"
             "d/p-F_Silkscreen.gto" "d/p-F_Mask.gts" "d/p-F_Cu.gtl"
  /\ exists context,
       composed_blocks demo_gerbers "B_Cu" false =
       List.app context
         [mk_block "d/p-B_Cu.gbl" (Z.of_nat (List.length context))
                   COLORS.copper false].
Proof.
  split.
  - apply (proj1 full_stack_order demo_gerbers _ _ _ _ _ _ _
                 "d/p-top.gvp" Dict.empty); reflexivity.
  - destruct (proj2 full_stack_order demo_gerbers "B_Cu" false "d/p-B_Cu.gbl"
                    "d/p-bot.gvp" Dict.empty eq_refl) as (context & H & _).
    exists context. exact H.
Defined.

(** C5: the stacking indices of the emitted blocks are 0, 1, 2, ... in
    emission order, each block opens with its index and file name, and a
    complete file ends with the background block of index -1 and empty
    file name. *)
Theorem stacking_indices gerbers layer show_paste :
  let r := fst (gvp_body gerbers layer show_paste fp_open) in
  let fp := snd (gvp_body gerbers layer show_paste fp_open) in
  map idx (blocks fp) = upto (List.length (blocks fp))
  /\ (forall b, In b (blocks fp) ->
        hd_error (block_text b) = Some (layer_header (idx b) (file_name b)))
  /\ (r = Ok tt ->
      written fp = prologue :: List.app (blocks_text (blocks fp)) epilogue
      /\ hd_error epilogue = Some (layer_header (-1) EmptyString)).
Proof.
  intros r fp. subst r fp. rewrite gvp_body_run.
  repeat split.
  - destruct (Dict.get gerbers layer); cbn [snd blocks];
      rewrite number_idx, number_length; unfold upto;
      apply map_ext; intros; lia.
  - intros [f i c inv] _. unfold block_text, write_layer. now destruct inv.
  - destruct (Dict.get gerbers layer); cbn [fst snd blocks written];
      [reflexivity | discriminate].
Qed.

Lemma stacking_indices_witness :
  let fp := snd (gvp_body demo_gerbers "B_Cu" false fp_open) in
  hd_error (block_text (mk_block "d/p-B_Cu.gbl" 3 COLORS.copper false))
  = Some (layer_header 3 "d/p-B_Cu.gbl")
  /\ written fp = prologue :: List.app (blocks_text (blocks fp)) epilogue
  /\ hd_error epilogue = Some (layer_header (-1) EmptyString).
Proof.
  split.
  - apply (proj1 (proj2 (stacking_indices demo_gerbers "B_Cu" false))
                 (mk_block "d/p-B_Cu.gbl" 3 COLORS.copper false)).
    vm_compute. auto.
  - apply (proj2 (proj2 (stacking_indices demo_gerbers "B_Cu" false))).
    reflexivity.
Defined.

(** C6: an emitted block carries the inversion flag exactly when it is the
    soldermask block: it has the soldermask colour and its file is the
    mapping's mask entry of the target side.  That block is emitted whenever
    the target is a top or bottom copper layer whose side has a mask file. *)
Theorem inversion_only_on_soldermask gerbers layer show_paste :
  (forall b, In b (composed_blocks gerbers layer show_paste) ->
             (is_inverted b = true <-> color b = COLORS.soldermask)
             /\ (In inverted_line (block_text b) <-> is_inverted b = true)
             /\ (is_inverted b = true ->
                 exists side,
                   (side = "F" \/ side = "B") /\ layer = side ++ "_Cu"
                   /\ Dict.get gerbers (side ++ "_Mask")
                      = Some (file_name b)))
  /\ (forall side m,
        side = "F" \/ side = "B" ->
        layer = side ++ "_Cu" ->
        Dict.get gerbers (side ++ "_Mask") = Some m ->
        exists i, In (mk_block m i COLORS.soldermask true)
                     (composed_blocks gerbers layer show_paste)).
Proof.
  split.
  - intros b Hb. split; [|split; [apply block_text_inverted|]].
    + rewrite composed_blocks_eq in Hb. apply In_number in Hb.
      assert (H : Forall mask_only
                    (List.app (select gerbers (context_plan layer show_paste))
                              match Dict.get gerbers layer with
                              | Some f => [(f, COLORS.copper, false)]
                              | None => []
                              end)).
      { apply Forall_app. split.
        - apply select_mask_only, context_plan_mask_only.
        - destruct (Dict.get gerbers layer); repeat constructor;
            unfold mask_only; simpl; intros; discriminate. }
      rewrite Forall_forall in H. exact (H _ Hb).
    + now apply (inverted_is_mask gerbers layer show_paste).
  - intros side m Hside -> Hm.
    rewrite composed_blocks_eq. apply number_In, in_or_app. left.
    now apply overlay_has_mask.
Qed.

Lemma inversion_only_on_soldermask_witness :
  (is_inverted (mk_block "d/p-F_Mask.gts" 4 COLORS.soldermask true) = true
   <-> color (mk_block "d/p-F_Mask.gts" 4 COLORS.soldermask true)
       = COLORS.soldermask)
  /\ exists i, In (mk_block "d/p-F_Mask.gts" i COLORS.soldermask true)
                  (composed_blocks demo_gerbers "F_Cu" false).
Proof.
  split.
  - apply (proj1 (inversion_only_on_soldermask demo_gerbers "F_Cu" false)
                 (mk_block "d/p-F_Mask.gts" 4 COLORS.soldermask true)).
    vm_compute. auto 10.
  - apply (proj2 (inversion_only_on_soldermask demo_gerbers "F_Cu" false) "F");
      [left; reflexivity | reflexivity | reflexivity].
Defined.

(** C7, as amended: without the paste flag no paste block is emitted, and
    the blocks are those of the composition with the flag, the paste block
    left out: same files, colours and inversion flags in the same order.
    The stacking indices are not carried over but run 0, 1, 2, ... again.
    With the flag, the paste block of the target side is emitted when the
    mapping has the file. *)
Theorem paste_hidden gerbers layer :
  Forall (fun b => is_paste b = false) (composed_blocks gerbers layer false)
  /\ map unnumbered (composed_blocks gerbers layer false) =
     map unnumbered (filter not_paste (composed_blocks gerbers layer true))
  /\ map idx (composed_blocks gerbers layer false) =
     upto (List.length (composed_blocks gerbers layer false))
  /\ (forall side pa,
        side = "F" \/ side = "B" ->
        layer = side ++ "_Cu" ->
        Dict.get gerbers (side ++ "_Paste") = Some pa ->
        exists i, In (mk_block pa i COLORS.paste false)
                     (composed_blocks gerbers layer true)).
Proof.
  assert (Heq : map unnumbered (composed_blocks gerbers layer false) =
     map unnumbered (filter not_paste (composed_blocks gerbers layer true))).
  { rewrite !composed_blocks_eq, number_unnumbered, filter_unnumbered.
    rewrite filter_app, <- select_filter, <- context_plan_without_paste.
    f_equal. destruct (Dict.get gerbers layer); reflexivity. }
  split; [|split; [exact Heq|split]].
  - apply Forall_forall. intros b Hb.
    apply (in_map unnumbered) in Hb. rewrite Heq in Hb.
    apply in_map_iff in Hb. destruct Hb as (b' & Hb' & Hin).
    apply filter_In in Hin. destruct Hin as [_ Hnp].
    unfold not_paste in Hnp. apply negb_true_iff in Hnp.
    destruct b as [f i c inv], b' as [f' i' c' inv'].
    unfold unnumbered in Hb'. simpl in Hb'.
    inversion Hb'; subst. exact Hnp.
  - rewrite composed_blocks_eq, number_idx, number_length. unfold upto.
    apply map_ext. intros; lia.
  - intros side pa Hside -> Hpa.
    rewrite composed_blocks_eq. apply number_In, in_or_app. left.
    now apply overlay_has_paste.
Qed.

Lemma paste_hidden_witness :
  exists i, In (mk_block "d/p-F_Paste.gtp" i COLORS.paste false)
               (composed_blocks demo_gerbers "F_Cu" true).
Proof.
  apply (proj2 (proj2 (proj2 (paste_hidden demo_gerbers "F_Cu"))) "F");
    [left; reflexivity | reflexivity | reflexivity].
Defined.

(** C7, as stated: the blocks left after the paste flag is dropped are not
    the blocks of the other composition themselves, their indices differ. *)
Lemma paste_hidden_literal_fails :
  composed_blocks demo_gerbers "F_Cu" false <>
  filter not_paste (composed_blocks demo_gerbers "F_Cu" true).
Proof. vm_compute. discriminate. Qed.

(** C10: the target lookup is unconditional.  When the mapping lacks the
    target the body raises a key error for it after the prologue and the
    context blocks have been written, and the file is left with exactly
    that text; when the mapping holds the target the composition returns
    normally. *)
Theorem missing_target_raises gerbers layer show_paste file fs :
  (Dict.get gerbers layer = None ->
   let context :=
     number 0 (select gerbers (context_plan layer show_paste)) in
   gvp_body gerbers layer show_paste fp_open =
     (Raise (KeyError layer), mk_fp (prologue :: blocks_text context) context)
   /\ generate_gerbv_project file gerbers layer show_paste fs =
      (Raise (KeyError layer),
       Dict.set fs file
         (String.concat EmptyString (prologue :: blocks_text context))))
  /\ (Dict.get gerbers layer <> None ->
      fst (gvp_body gerbers layer show_paste fp_open) = Ok tt
      /\ fst (generate_gerbv_project file gerbers layer show_paste fs) = Ok tt).
Proof.
  split.
  - intros Hnone context. rewrite generate_gerbv_project_run, gvp_body_run, Hnone.
    split; reflexivity.
  - intros Hsome. rewrite generate_gerbv_project_run, gvp_body_run.
    destruct (Dict.get gerbers layer); [split; reflexivity | congruence].
Qed.

Lemma missing_target_raises_witness :
  generate_gerbv_project "d/p-in1.gvp" demo_gerbers "In1_Cu" true Dict.empty =
  (Raise (KeyError "In1_Cu"),
   [("d/p-in1.gvp",
     String.concat EmptyString
       (prologue ::
        blocks_text [mk_block "d/p-Edge_Cuts.gm1" 0 black false;
                     mk_block "d/p-PTH.drl" 1 black false;
                     mk_block "d/p-NPTH.drl" 2 black false]))])
  /\ fst (gvp_body demo_gerbers "B_Cu" true fp_open) = Ok tt.
Proof.
  split.
  - apply (proj1 (missing_target_raises demo_gerbers "In1_Cu" true
                    "d/p-in1.gvp" Dict.empty)).
    reflexivity.
  - apply (proj2 (missing_target_raises demo_gerbers "B_Cu" true
                    "d/p-bot.gvp" Dict.empty)).
    discriminate.
Defined.

(** ** Regular expressions *)

Lemma append_assoc (a b c : string) : (a ++ b) ++ c = a ++ (b ++ c).
Proof. induction a; simpl; congruence. Qed.

Lemma append_nil_r (a : string) : a ++ EmptyString = a.
Proof. induction a; simpl; congruence. Qed.

Lemma length_append (a b : string) :
  String.length (a ++ b) = String.length a + String.length b.
Proof. induction a; simpl; congruence. Qed.

Lemma take_append (a b : string) : take (String.length a) (a ++ b) = a.
Proof. induction a; simpl; [destruct b|]; congruence. Qed.

Lemma consumed_append (a b : string) : consumed (a ++ b) b = a.
Proof.
  unfold consumed. rewrite length_append.
  replace (String.length a + String.length b - String.length b)
    with (String.length a) by lia.
  apply take_append.
Qed.

Lemma many_sound p s k out :
  many p s k = Some out ->
  exists s1 s2, s = s1 ++ s2 /\ all p s1 = true /\ k s2 = Some out.
Proof.
  induction s as [|c s IH]; simpl.
  - intros H. exists EmptyString, EmptyString. auto.
  - destruct (p c) eqn:Hc.
    + destruct (many p s k) eqn:Hm.
      * intros H. inversion H; subst.
        destruct (IH eq_refl) as (s1 & s2 & -> & Hall & Hk).
        exists (String c s1), s2. simpl. rewrite Hc. auto.
      * intros H. exists EmptyString, (String c s). auto.
    + intros H. exists EmptyString, (String c s). auto.
Qed.

Lemma run_sound r : forall s g k out,
  run r s g k = Some out ->
  exists s1 s2 caps,
    s = s1 ++ s2 /\ sem r s1 s2 caps /\ k s2 (List.app caps g) = Some out.
Proof.
  induction r as [p|p|r1 IH1 r2 IH2|r1 IH1 r2 IH2|n r IH|]; intros s g k out; simpl.
  - destruct s as [|c s]; [discriminate|].
    destruct (p c) eqn:Hc; [|discriminate].
    intros H. exists (chr c), s, []. repeat split; auto. now constructor.
  - intros H. apply many_sound in H. destruct H as (s1 & s2 & -> & Hall & Hk).
    exists s1, s2, []. repeat split; auto. now constructor.
  - intros H. apply IH1 in H. destruct H as (s1 & s' & g1 & -> & H1 & H).
    apply IH2 in H. destruct H as (s2 & s3 & g2 & -> & H2 & H).
    exists (s1 ++ s2), s3, (List.app g2 g1). rewrite append_assoc, <- app_assoc.
    repeat split; auto. now constructor.
  - destruct (run r1 s g k) eqn:E1.
    + intros H; inversion H; subst. apply IH1 in E1.
      destruct E1 as (s1 & s2 & caps & -> & H1 & Hk).
      exists s1, s2, caps. repeat split; auto. now apply sem_alt_l.
    + intros H. apply IH2 in H.
      destruct H as (s1 & s2 & caps & -> & H1 & Hk).
      exists s1, s2, caps. repeat split; auto. now apply sem_alt_r.
  - intros H. apply IH in H. destruct H as (s1 & s2 & caps & -> & H1 & Hk).
    rewrite consumed_append in Hk.
    exists s1, s2, ((n, s1) :: caps). repeat split; auto. now constructor.
  - destruct (at_eol s) eqn:E; [|discriminate]. intros H.
    exists EmptyString, s, []. repeat split; auto. now constructor.
Qed.

Lemma re_match_sound r s m :
  re_match r s = Some m -> exists s1 s2, s = s1 ++ s2 /\ sem r s1 s2 m.
Proof.
  unfold re_match. intros H. apply run_sound in H.
  destruct H as (s1 & s2 & caps & -> & Hsem & Hk).
  rewrite app_nil_r in Hk. inversion Hk; subst. eauto.
Qed.

(** ** The classifier *)

Lemma find_step_classify path g out file :
  find_step path (g, out) file =
  match classify file with
  | Some (project, layer) =>
      (add_file g project layer (path_join path file),
       snoc out ("Found '" ++ file ++ "'"))
  | None => (g, out)
  end.
Proof.
  unfold find_step, classify, add_file.
  destruct (re_match file_regex file) as [m|]; [|reflexivity].
  destruct (re_match ext_regex (lower (group m 3))); [|reflexivity].
  destruct (Dict.contains g (group m 1)) eqn:Hc.
  - destruct (Dict.get g (group m 1)); reflexivity.
  - rewrite get_set_same. reflexivity.
Qed.

Lemma lookup2_add_same g p l v : lookup2 (add_file g p l v) p l = Some v.
Proof.
  unfold lookup2, add_file, Dict.contains.
  destruct (Dict.get g p) eqn:E.
  - rewrite E, !get_set_same. reflexivity.
  - rewrite !get_set_same. reflexivity.
Qed.

Lemma lookup2_add_other g p l v p' l' :
  (p', l') <> (p, l) -> lookup2 (add_file g p l v) p' l' = lookup2 g p' l'.
Proof.
  intros Hne. unfold lookup2, add_file, Dict.contains.
  destruct (String.eqb_spec p' p) as [->|Hp].
  - assert (Hl : l' <> l) by congruence.
    destruct (Dict.get g p) eqn:E.
    + rewrite E, get_set_same, get_set_other by exact Hl. reflexivity.
    + rewrite !get_set_same, get_set_other by exact Hl. reflexivity.
  - destruct (Dict.get g p) eqn:E.
    + rewrite E, get_set_other by exact Hp. reflexivity.
    + rewrite get_set_same, !get_set_other by exact Hp. reflexivity.
Qed.

(** *** The order on strings *)

Lemma leb_cons c1 s1 c2 s2 :
  String.leb (String c1 s1) (String c2 s2) =
  match N.compare (N_of_ascii c1) (N_of_ascii c2) with
  | Eq => String.leb s1 s2
  | Lt => true
  | Gt => false
  end.
Proof.
  unfold String.leb. simpl. unfold Ascii.compare.
  destruct (N.compare (N_of_ascii c1) (N_of_ascii c2)); reflexivity.
Qed.

Lemma leb_trans a : forall b c, le a b -> le b c -> le a c.
Proof.
  unfold le. induction a as [|c1 a IH]; intros [|c2 b] [|c3 c]; try reflexivity;
    try discriminate.
  rewrite !leb_cons.
  destruct (N.compare_spec (N_of_ascii c1) (N_of_ascii c2)) as [E|L|G];
    destruct (N.compare_spec (N_of_ascii c2) (N_of_ascii c3)) as [E'|L'|G'];
    destruct (N.compare_spec (N_of_ascii c1) (N_of_ascii c3)) as [E''|L''|G''];
    try discriminate; try reflexivity; try lia; try (intros; lia).
  apply IH.
Qed.

Lemma insert_perm x l : Permutation (x :: l) (insert x l).
Proof.
  induction l as [|y l IH]; simpl; [reflexivity|].
  destruct (String.leb x y); [reflexivity|].
  rewrite perm_swap. now apply perm_skip.
Qed.

Lemma sorted_perm l : Permutation l (sorted l).
Proof.
  induction l as [|x l IH]; simpl; [constructor|].
  rewrite <- insert_perm. now apply perm_skip.
Qed.

Lemma insert_sorted x l :
  StronglySorted le l -> StronglySorted le (insert x l).
Proof.
  induction 1 as [|y l Hs IH Hall]; simpl.
  - repeat constructor.
  - destruct (String.leb x y) eqn:E.
    + constructor; [now constructor|]. constructor; [exact E|].
      rewrite Forall_forall in *. intros z Hz.
      apply leb_trans with y; [exact E | now apply Hall].
    + constructor; [exact IH|].
      rewrite Forall_forall in *. intros z Hz.
      apply (Permutation_in _ (Permutation_sym (insert_perm x l))) in Hz.
      destruct Hz as [<- | Hz]; [|now apply Hall].
      destruct (String.leb_total x y) as [H|H]; [congruence | exact H].
Qed.

Lemma sorted_sorted l : StronglySorted le (sorted l).
Proof.
  induction l; simpl; [constructor | now apply insert_sorted].
Qed.

Lemma in_split_last (x : string) l :
  In x l -> exists l1 l2, l = List.app l1 (x :: l2) /\ ~ In x l2.
Proof.
  induction l as [|y l IH]; simpl; [tauto|].
  intros H. destruct (in_dec string_dec x l) as [Hin|Hnin].
  - destruct (IH Hin) as (l1 & l2 & -> & Hn). exists (y :: l1), l2. auto.
  - destruct H as [-> | H]; [|contradiction]. exists [], l. auto.
Qed.

Lemma sorted_after l1 x l2 :
  StronglySorted le (List.app l1 (x :: l2)) -> Forall (le x) l2.
Proof.
  induction l1 as [|y l1 IH]; simpl; intros H.
  - now apply StronglySorted_inv in H.
  - apply StronglySorted_inv in H. now apply IH.
Qed.

(** *** The classifier loop *)

Lemma fold_find_untouched path p l files : forall st,
  (forall f, In f files -> classify f <> Some (p, l)) ->
  lookup2 (fst (fold_left (find_step path) files st)) p l = lookup2 (fst st) p l.
Proof.
  induction files as [|f files IH]; intros [g out] Hno; cbn [fold_left];
    [reflexivity|].
  rewrite find_step_classify.
  destruct (classify f) as [[p' l']|] eqn:E.
  - rewrite IH by (intros; apply Hno; now right).
    simpl. apply lookup2_add_other. intros Heq. apply (Hno f); [now left|].
    congruence.
  - apply IH. intros; apply Hno; now right.
Qed.

Lemma fold_find_last path p l before file after st :
  classify file = Some (p, l) ->
  (forall f, In f after -> classify f <> Some (p, l)) ->
  lookup2 (fst (fold_left (find_step path) (List.app before (file :: after)) st))
          p l = Some (path_join path file).
Proof.
  intros Hc Hno. rewrite fold_left_app. cbn [fold_left].
  destruct (fold_left (find_step path) before st) as [g out].
  rewrite find_step_classify, Hc.
  rewrite fold_find_untouched by exact Hno. simpl. apply lookup2_add_same.
Qed.

(** C8: when several entries of the directory classify to the same project
    and layer, the result holds for that pair the path of the greatest of
    them in the order of [sorted]: the entries are visited in ascending
    order and each one overwrites the entry before it. *)
Theorem last_duplicate_wins path listing file project layer :
  In file listing ->
  classify file = Some (project, layer) ->
  (forall other, In other listing ->
                 classify other = Some (project, layer) ->
                 String.leb other file = true) ->
  lookup2 (find_gerber_files path listing) project layer
  = Some (path_join path file).
Proof.
  intros Hin Hc Hmax. unfold find_gerber_files, find_gerber_files_out.
  pose proof (sorted_perm listing) as Hperm.
  pose proof (sorted_sorted listing) as Hsort.
  apply (Permutation_in _ Hperm) in Hin.
  destruct (in_split_last _ _ Hin) as (l1 & l2 & Heq & Hlast).
  rewrite Heq in *. apply fold_find_last; [exact Hc|].
  intros f Hf Hcf. apply Hlast.
  assert (Hle : le file f).
  { apply sorted_after in Hsort. rewrite Forall_forall in Hsort. now apply Hsort. }
  assert (Hge : String.leb f file = true).
  { apply Hmax; [|exact Hcf].
    apply (Permutation_in _ (Permutation_sym Hperm)).
    apply in_or_app. right. now right. }
  rewrite (String.leb_antisym _ _ Hle Hge). exact Hf.
Qed.

Lemma last_duplicate_wins_witness :
  lookup2 (find_gerber_files "d" ["p-F_Cu.gtl"; "readme.txt"; "p-F_Cu.GTL"])
          "p" "F_Cu"
  = Some "d/p-F_Cu.gtl".
Proof.
  apply (last_duplicate_wins "d" ["p-F_Cu.gtl"; "readme.txt"; "p-F_Cu.GTL"]
                             "p-F_Cu.gtl" "p" "F_Cu").
  - simpl. auto.
  - reflexivity.
  - intros other [<- | [<- | [<- | []]]] H; try reflexivity; discriminate H.
Defined.

(** ** What the classifier accepts *)

Ltac inv H := inversion H; subst; clear H.

Lemma all_append p a b : all p (a ++ b) = all p a && all p b.
Proof. induction a; simpl; [reflexivity|]. now rewrite IHa, andb_assoc. Qed.

Lemma sem_many1 p s rest g :
  sem (Many1 p) s rest g ->
  g = [] /\ all p s = true /\ s <> EmptyString.
Proof.
  unfold Many1. intros H. inv H.
  match goal with H : sem (Class _) _ _ _ |- _ => inv H end.
  match goal with H : sem (Many _) _ _ _ |- _ => inv H end.
  repeat split; simpl; [|discriminate].
  now apply andb_true_intro.
Qed.

Ltac sem_inv :=
  repeat match goal with
         | H : sem (Seq _ _) _ _ _ |- _ => inv H
         | H : sem (Alt _ _) _ _ _ |- _ => inv H
         | H : sem (Group _ _) _ _ _ |- _ => inv H
         | H : sem (Chr _) _ _ _ |- _ => unfold Chr in H
         | H : sem (Class _) _ _ _ |- _ => inv H
         | H : sem (Many _) _ _ _ |- _ => inv H
         | H : sem Eol _ _ _ |- _ => inv H
         | H : sem (Many1 _) _ _ _ |- _ =>
             apply sem_many1 in H; destruct H as (-> & ? & ?)
         | H : Ascii.eqb _ _ = true |- _ => apply Ascii.eqb_eq in H; subst
         end.

(** What a match of the file name pattern looks like. *)
Lemma file_regex_sem s rest m :
  sem file_regex s rest m ->
  exists a l d e,
    s = a ++ "-" ++ l ++ chr d ++ e
    /\ all is_dot a = true
    /\ l <> EmptyString /\ all is_word l = true
    /\ is_dot d = true
    /\ e <> EmptyString /\ all is_word e = true
    /\ at_eol rest = true
    /\ m = [(3, e); (2, l); (1, a)].
Proof.
  unfold file_regex. intros H. sem_inv.
  exists s1, s2, c0, s4. rewrite append_nil_r. simpl. repeat split; auto.
Qed.

Lemma classify_sound file project layer :
  classify file = Some (project, layer) ->
  exists d e rest,
    file = project ++ "-" ++ layer ++ chr d ++ e ++ rest
    /\ all is_dot project = true
    /\ layer <> EmptyString /\ all is_word layer = true
    /\ is_dot d = true
    /\ e <> EmptyString /\ all is_word e = true
    /\ at_eol rest = true
    /\ re_match ext_regex (lower e) <> None.
Proof.
  unfold classify. destruct (re_match file_regex file) as [m|] eqn:Hm;
    [|discriminate].
  apply re_match_sound in Hm. destruct Hm as (s1 & rest & -> & Hsem).
  apply file_regex_sem in Hsem.
  destruct Hsem as (a & l & d & e & -> & Ha & Hl & Hl' & Hd & He & He' & Hr & ->).
  cbn [group Nat.eqb].
  destruct (re_match ext_regex (lower e)) eqn:Hext; [|discriminate].
  intros H. inv H. exists d, e, rest.
  rewrite ?append_assoc. simpl. rewrite ?append_assoc. simpl.
  rewrite ?append_assoc.
  repeat split; auto. rewrite Hext. discriminate.
Qed.

Lemma append_eq_append (a : string) : forall b c d,
  a ++ b = c ++ d ->
  (exists u, a = c ++ u /\ d = u ++ b) \/ (exists u, c = a ++ u /\ b = u ++ d).
Proof.
  induction a as [|x a IH]; intros b c d H; simpl in H.
  - right. exists c. auto.
  - destruct c as [|y c]; simpl in H.
    + left. exists (String x a). auto.
    + inv H. destruct (IH _ _ _ H2) as [(u & -> & ->) | (u & -> & ->)].
      * left. exists u. auto.
      * right. exists u. auto.
Qed.

(** a word that ends a name with the extension [gvp] is part of [gvp] *)
Lemma word_suffix_of_gvp x e n :
  x ++ e = n ++ ".gvp" -> all is_word e = true -> e <> EmptyString ->
  e = "gvp" \/ e = "vp" \/ e = "p".
Proof.
  intros H He Hne. apply append_eq_append in H.
  destruct H as [(u & -> & Hu) | (u & -> & ->)].
  - destruct u as [|c1 [|c2 [|c3 [|c4 [|c5 u]]]]]; simpl in Hu;
      inversion Hu; subst; auto; try congruence;
      try (simpl in He; discriminate He).
  - rewrite all_append in He. simpl in He. rewrite andb_false_r in He.
    discriminate.
Qed.

Lemma at_eol_cases rest :
  at_eol rest = true -> rest = EmptyString \/ rest = nl.
Proof.
  destruct rest as [|c [|c' rest]]; simpl; auto; try discriminate.
  intros H. apply Ascii.eqb_eq in H. subst. now right.
Qed.

(** No name with the extension of the project files is classified. *)
Lemma classify_gvp name : classify (name ++ ".gvp") = None.
Proof.
  destruct (classify (name ++ ".gvp")) as [[project layer]|] eqn:Hc;
    [|reflexivity].
  exfalso. apply classify_sound in Hc.
  destruct Hc as (d & e & rest & Hfile & _ & _ & _ & _ & He & He' & Hr & Hext).
  apply at_eol_cases in Hr.
  assert (Hsuffix : exists x, x ++ e = name ++ ".gvp").
  { destruct Hr as [-> | ->].
    - exists (project ++ "-" ++ layer ++ chr d).
      rewrite Hfile, append_nil_r, !append_assoc. reflexivity.
    - exfalso. rewrite <- !append_assoc in Hfile.
      symmetry in Hfile. apply append_eq_append in Hfile.
      destruct Hfile as [(u & Hu & Hv) | (u & Hu & Hv)].
      + destruct u as [|c1 [|c2 [|c3 [|c4 [|c5 u]]]]]; simpl in Hv;
          inversion Hv.
      + destruct u as [|c1 [|c2 u]]; simpl in Hv; inversion Hv. }
  destruct Hsuffix as (x & Hx).
  destruct (word_suffix_of_gvp _ _ _ Hx He' He) as [-> | [-> | ->]];
    apply Hext; reflexivity.
Qed.

(** ** The driver *)

Lemma write_gvp_run a project gerbers id name w :
  Dict.contains gerbers id = true ->
  write_gvp a project gerbers id name w =
  (Ok (gvp_path a project name), write_effect a project gerbers w (id, name)).
Proof.
  unfold Dict.contains. intros Hc.
  destruct (Dict.get gerbers id) as [f|] eqn:Hget; [|discriminate].
  unfold write_gvp, bind, print, with_fs, ret, write_effect, gvp_write.
  cbn [fs stdout spawned fst snd].
  rewrite generate_gerbv_project_run. unfold composed_blocks.
  rewrite gvp_body_run, Hget. reflexivity.
Qed.

Lemma for_in_map {S X Y A : Type} (f : X -> Y) (body : Y -> A -> M S A) xs :
  forall acc st,
    for_in (map f xs) body acc st = for_in xs (fun x => body (f x)) acc st.
Proof.
  induction xs as [|x xs IH]; intros acc st; simpl; [reflexivity|].
  unfold bind. destruct (body (f x) acc st) as [[acc'|e] st']; auto.
Qed.

Lemma compose_layers_run a project gerbers js : forall acc w,
  for_in js (compose_layer a project gerbers) acc w =
  (Ok (List.app acc
         (map (fun j => gvp_path a project (snd j))
              (filter (fun j => Dict.contains gerbers (fst j)) js))),
   fold_left (write_effect a project gerbers)
             (filter (fun j => Dict.contains gerbers (fst j)) js) w).
Proof.
  induction js as [|[id name] js IH]; intros acc w; cbn [for_in filter fst].
  - unfold ret. now rewrite app_nil_r.
  - unfold bind, compose_layer at 1. cbn [fst snd].
    destruct (Dict.contains gerbers id) eqn:Hc.
    + unfold bind. rewrite write_gvp_run by exact Hc. unfold ret at 1.
      rewrite IH. cbn [map fold_left snd]. unfold snoc.
      now rewrite <- app_assoc.
    + unfold ret at 1. apply IH.
Qed.

Lemma compose_project_eq a project gerbers acc :
  compose_project a (project, gerbers) acc =
  for_in inspected_layers (compose_layer a project gerbers) acc.
Proof. reflexivity. Qed.

Lemma compose_project_run a project gerbers acc w :
  compose_project a (project, gerbers) acc w =
  (Ok (List.app acc (map (fun j => gvp_path a project (snd j))
                         (project_jobs gerbers))),
   project_effect a w (project, gerbers)).
Proof.
  rewrite compose_project_eq. apply compose_layers_run.
Qed.

Lemma compose_all_from a all : forall acc w,
  for_in all (compose_project a) acc w =
  (Ok (List.app acc (map (fun pj => gvp_path a (fst pj) (snd pj))
                         (all_jobs all))),
   fold_left (project_effect a) all w).
Proof.
  induction all as [|[project gerbers] all IH]; intros acc w; cbn [for_in].
  - unfold ret. cbn. now rewrite app_nil_r.
  - unfold bind. rewrite compose_project_run, IH.
    unfold all_jobs. cbn [flat_map fst snd fold_left].
    rewrite <- app_assoc, map_app, map_map. reflexivity.
Qed.

Lemma compose_all_run a all w :
  compose_all a all w =
  (Ok (map (fun pj => gvp_path a (fst pj) (snd pj)) (all_jobs all)),
   fold_left (project_effect a) all w).
Proof. unfold compose_all. now rewrite compose_all_from. Qed.

(** *** The files written *)

Lemma fs_write_effects a project gerbers js : forall w,
  fs (fold_left (write_effect a project gerbers) js w) =
  set_all (fs w) (map (gvp_write a project gerbers) js).
Proof.
  induction js as [|j js IH]; intros w; cbn [fold_left map]; [reflexivity|].
  rewrite IH. reflexivity.
Qed.

Lemma set_all_app d l1 l2 : set_all d (List.app l1 l2) = set_all (set_all d l1) l2.
Proof. unfold set_all. apply fold_left_app. Qed.

Lemma fs_all_effects a all : forall w,
  fs (fold_left (project_effect a) all w) = set_all (fs w) (all_writes a all).
Proof.
  induction all as [|[project gerbers] all IH]; intros w;
    cbn [fold_left]; [reflexivity|].
  rewrite IH. unfold project_effect at 1. rewrite fs_write_effects.
  unfold all_writes. cbn [flat_map fst snd]. now rewrite set_all_app.
Qed.

Lemma spawned_write_effects a project gerbers js : forall w,
  spawned (fold_left (write_effect a project gerbers) js w) = spawned w.
Proof.
  induction js as [|j js IH]; intros w; cbn [fold_left]; [reflexivity|].
  now rewrite IH.
Qed.

Lemma spawned_all_effects a all : forall w,
  spawned (fold_left (project_effect a) all w) = spawned w.
Proof.
  induction all as [|item all IH]; intros w; cbn [fold_left]; [reflexivity|].
  rewrite IH. apply spawned_write_effects.
Qed.

Lemma set_fresh {V : Type} (d : Dict.t V) k v :
  ~ In k (Dict.keys d) -> Dict.set d k v = List.app d [(k, v)].
Proof.
  induction d as [|[k' v'] d IH]; simpl; intros Hn; [reflexivity|].
  destruct (String.eqb_spec k k') as [->|Hne]; [tauto|].
  rewrite IH by tauto. reflexivity.
Qed.

Lemma set_all_fresh kvs : forall d,
  NoDup (List.app (Dict.keys d) (map fst kvs)) ->
  set_all d kvs = List.app d kvs.
Proof.
  induction kvs as [|[k v] kvs IH]; intros d Hnd; cbn [set_all fold_left].
  - now rewrite app_nil_r.
  - cbn [map fst] in Hnd.
    assert (Hk : ~ In k (Dict.keys d)).
    { apply NoDup_remove_2 in Hnd. intros Hin. apply Hnd.
      apply in_or_app. now left. }
    cbn [fst snd]. rewrite (set_fresh d k v Hk).
    change (fold_left _ kvs ?x) with (set_all x kvs).
    rewrite IH.
    + now rewrite <- app_assoc.
    + unfold Dict.keys. rewrite map_app. cbn [map fst].
      rewrite <- app_assoc. exact Hnd.
Qed.

Lemma get_In {V : Type} (d : Dict.t V) k v : Dict.get d k = Some v -> In (k, v) d.
Proof.
  induction d as [|[k' v'] d IH]; simpl; [discriminate|].
  destruct (String.eqb_spec k k') as [->|Hne].
  - intros H. inversion H. now left.
  - intros H. right. now apply IH.
Qed.

Lemma In_get {V : Type} (d : Dict.t V) k v :
  NoDup (Dict.keys d) -> In (k, v) d -> Dict.get d k = Some v.
Proof.
  induction d as [|[k' v'] d IH]; simpl; [tauto|].
  intros Hnd [H | H].
  - inversion H. now rewrite String.eqb_refl.
  - inversion Hnd as [|? ? Hnot Hnd']; subst.
    destruct (String.eqb_spec k k') as [->|Hne].
    + exfalso. apply Hnot. change k' with (fst (k', v)). now apply in_map.
    + now apply IH.
Qed.

Lemma keys_set {V : Type} (d : Dict.t V) k v :
  Dict.keys (Dict.set d k v) =
  if Dict.contains d k then Dict.keys d else List.app (Dict.keys d) [k].
Proof.
  unfold Dict.contains.
  induction d as [|[k' v'] d IH]; simpl; [reflexivity|].
  destruct (String.eqb_spec k k') as [->|Hne]; simpl; [reflexivity|].
  rewrite IH. now destruct (Dict.get d k).
Qed.

Lemma contains_keys {V : Type} (d : Dict.t V) k :
  Dict.contains d k = true <-> In k (Dict.keys d).
Proof.
  unfold Dict.contains.
  induction d as [|[k' v'] d IH]; simpl; [split; [discriminate|tauto]|].
  destruct (String.eqb_spec k k') as [->|Hne]; [tauto|].
  rewrite IH. split; [tauto|]. intros [H|H]; [congruence|exact H].
Qed.

Lemma NoDup_keys_set {V : Type} (d : Dict.t V) k v :
  NoDup (Dict.keys d) -> NoDup (Dict.keys (Dict.set d k v)).
Proof.
  intros Hnd. rewrite keys_set.
  destruct (Dict.contains d k) eqn:Hc; [exact Hnd|].
  apply NoDup_app; [exact Hnd | repeat constructor; simpl; tauto |].
  intros x Hx [<- | []]. apply contains_keys in Hx. congruence.
Qed.

(** *** The keys of the classifier's result *)

Lemma keys_add_file g p l v :
  Dict.keys (add_file g p l v) =
  if Dict.contains g p then Dict.keys g else List.app (Dict.keys g) [p].
Proof.
  unfold add_file. destruct (Dict.contains g p) eqn:Hc.
  - unfold Dict.contains in Hc. destruct (Dict.get g p) eqn:Hg; [|discriminate].
    rewrite keys_set. unfold Dict.contains. now rewrite Hg.
  - rewrite get_set_same, keys_set.
    unfold Dict.contains at 1. rewrite get_set_same.
    rewrite keys_set, Hc. reflexivity.
Qed.

Lemma find_keys path files : forall st,
  NoDup (Dict.keys (fst st)) ->
  NoDup (Dict.keys (fst (fold_left (find_step path) files st)))
  /\ forall p, In p (Dict.keys (fst (fold_left (find_step path) files st))) ->
               In p (Dict.keys (fst st))
               \/ exists f l, In f files /\ classify f = Some (p, l).
Proof.
  induction files as [|f files IH]; intros [g out] Hnd; cbn [fold_left].
  - split; [exact Hnd | auto].
  - rewrite find_step_classify.
    destruct (classify f) as [[p l]|] eqn:Hc.
    + destruct (IH (add_file g p l (path_join path f),
                    snoc out ("Found '" ++ f ++ "'"))) as [H1 H2].
      { cbn [fst]. rewrite keys_add_file.
        destruct (Dict.contains g p) eqn:Hcp; [exact Hnd|].
        apply NoDup_app; [exact Hnd | repeat constructor; simpl; tauto |].
        intros x Hx [<- | []]. apply contains_keys in Hx. congruence. }
      split; [exact H1|]. intros q Hq. destruct (H2 q Hq) as [Hin | Hex].
      * cbn [fst] in Hin. rewrite keys_add_file in Hin.
        destruct (Dict.contains g p); [now left|].
        apply in_app_or in Hin. destruct Hin as [Hin | [<- | []]]; [now left|].
        right. exists f, l. split; [now left | exact Hc].
      * right. destruct Hex as (f' & l' & Hf' & Hc'). exists f', l'.
        split; [now right | exact Hc'].
    + destruct (IH (g, out) Hnd) as [H1 H2]. split; [exact H1|].
      intros q Hq. destruct (H2 q Hq) as [Hin | Hex]; [now left|].
      right. destruct Hex as (f' & l' & Hf' & Hc'). exists f', l'.
      split; [now right | exact Hc'].
Qed.

Lemma find_gerber_files_keys path listing :
  NoDup (Dict.keys (find_gerber_files path listing))
  /\ forall p, In p (Dict.keys (find_gerber_files path listing)) ->
               exists f l, In f listing /\ classify f = Some (p, l).
Proof.
  unfold find_gerber_files, find_gerber_files_out.
  destruct (find_keys path (sorted listing) (Dict.empty, [])) as [H1 H2];
    [constructor|].
  split; [exact H1|]. intros p Hp. destruct (H2 p Hp) as [[] | Hex].
  destruct Hex as (f & l & Hf & Hc). exists f, l. split; [|exact Hc].
  apply (Permutation_in _ (Permutation_sym (sorted_perm listing))). exact Hf.
Qed.

Lemma has_char_append c a b :
  has_char c (a ++ b) = has_char c a || has_char c b.
Proof. induction a; simpl; [reflexivity|]. now rewrite IHa, orb_assoc. Qed.

Lemma project_no_slash path listing p :
  Forall (fun f => has_char "/" f = false) listing ->
  In p (Dict.keys (find_gerber_files path listing)) ->
  has_char "/" p = false.
Proof.
  intros Hall Hp. apply find_gerber_files_keys in Hp.
  destruct Hp as (f & l & Hf & Hc). rewrite Forall_forall in Hall.
  specialize (Hall f Hf). apply classify_sound in Hc.
  destruct Hc as (d & e & rest & -> & _).
  rewrite has_char_append in Hall. now apply orb_false_elim in Hall.
Qed.

(** *** Project file names *)

Lemma append_inv_head (a : string) b c : a ++ b = a ++ c -> b = c.
Proof. induction a; simpl; intros H; [exact H|]. inversion H. auto. Qed.

Lemma append_inv_tail (a b c : string) : a ++ c = b ++ c -> a = b.
Proof.
  intros H. pose proof (f_equal String.length H) as Hlen.
  rewrite !length_append in Hlen.
  apply append_eq_append in H.
  destruct H as [(u & -> & Hu) | (u & -> & Hu)];
    apply (f_equal String.length) in Hu; rewrite !length_append in *;
    destruct u; simpl in *; try lia; now rewrite append_nil_r.
Qed.

Lemma split_at_last_dash a b t u :
  has_char "-" t = false -> has_char "-" u = false ->
  a ++ "-" ++ t = b ++ "-" ++ u -> a = b /\ t = u.
Proof.
  intros Ht Hu H. apply append_eq_append in H.
  destruct H as [(v & -> & Hv) | (v & -> & Hv)]; destruct v as [|c v];
    simpl in Hv; inversion Hv; subst.
  - now rewrite append_nil_r.
  - rewrite has_char_append in Hu. simpl in Hu.
    rewrite orb_true_r in Hu. discriminate.
  - now rewrite append_nil_r.
  - rewrite has_char_append in Ht. simpl in Ht.
    rewrite orb_true_r in Ht. discriminate.
Qed.

Lemma startswith_slash b :
  has_char "/" b = false -> startswith b "/" = false.
Proof.
  unfold startswith. destruct b as [|c b]; cbn [String.prefix has_char];
    [reflexivity|].
  intros H. destruct (ascii_dec "/" c) as [<-|_]; [|reflexivity].
  rewrite Ascii.eqb_refl in H. discriminate.
Qed.

Lemma path_join_relative a b :
  has_char "/" b = false -> path_join a b = join_prefix a ++ b.
Proof.
  intros Hb. unfold path_join, join_prefix.
  rewrite (startswith_slash b Hb).
  destruct (String.eqb a EmptyString || endswith a "/"); [reflexivity|].
  now rewrite append_assoc.
Qed.

Lemma inspected_names_plain :
  forallb (fun j => plain_name (snd j)) inspected_layers = true.
Proof. vm_compute. reflexivity. Qed.

Lemma inspected_name_plain id name :
  In (id, name) inspected_layers ->
  has_char "-" (name ++ ".gvp") = false
  /\ has_char "/" ("-" ++ name ++ ".gvp") = false.
Proof.
  intros Hin. pose proof inspected_names_plain as H.
  rewrite forallb_forall in H. specialize (H _ Hin). cbn [snd] in H.
  unfold plain_name in H.
  apply andb_prop in H. destruct H as [H H3].
  apply andb_prop in H. destruct H as [H1 H2].
  apply negb_true_iff in H2, H3. auto.
Qed.

Lemma inspected_ids_NoDup : NoDup (map fst inspected_layers).
Proof.
  assert (H : nodup string_dec (map fst inspected_layers)
              = map fst inspected_layers) by (vm_compute; reflexivity).
  rewrite <- H. apply NoDup_nodup.
Qed.

Lemma inspected_names_NoDup : NoDup (map snd inspected_layers).
Proof.
  assert (H : nodup string_dec (map snd inspected_layers)
              = map snd inspected_layers) by (vm_compute; reflexivity).
  rewrite <- H. apply NoDup_nodup.
Qed.

Lemma NoDup_map_filter {A B : Type} (f : A -> B) (p : A -> bool) l :
  NoDup (map f l) -> NoDup (map f (filter p l)).
Proof.
  induction l as [|x l IH]; simpl; intros H; [constructor|].
  inversion H as [|? ? Hn Hnd]; subst.
  destruct (p x); simpl; [|now apply IH].
  constructor; [|now apply IH].
  intros Hin. apply Hn. apply in_map_iff in Hin.
  destruct Hin as (y & Hy & Hin). apply filter_In in Hin.
  rewrite <- Hy. apply in_map. tauto.
Qed.

Lemma NoDup_map_inj {A B : Type} (f : A -> B) l :
  (forall x y, In x l -> In y l -> f x = f y -> x = y) ->
  NoDup l -> NoDup (map f l).
Proof.
  induction l as [|x l IH]; simpl; intros Hinj H; [constructor|].
  inversion H as [|? ? Hn Hnd]; subst. constructor.
  - intros Hin. apply in_map_iff in Hin. destruct Hin as (y & Hy & Hin).
    apply Hn. rewrite (Hinj x y); auto.
  - apply IH; auto.
Qed.

Lemma map_inj_in {A B : Type} (f : A -> B) l x y :
  NoDup (map f l) -> In x l -> In y l -> f x = f y -> x = y.
Proof.
  induction l as [|z l IH]; simpl; [tauto|].
  intros H. inversion H as [|? ? Hn Hnd]; subst.
  intros [<- | Hx] [<- | Hy] E; auto.
  - exfalso. apply Hn. rewrite E. now apply in_map.
  - exfalso. apply Hn. rewrite <- E. now apply in_map.
Qed.

Lemma all_jobs_In all p n :
  In (p, n) (all_jobs all) <->
  exists gerbers id, In (p, gerbers) all /\ In (id, n) inspected_layers
                     /\ Dict.contains gerbers id = true.
Proof.
  unfold all_jobs. rewrite in_flat_map. split.
  - intros ([p' g] & Hitem & Hin). cbn [fst snd] in Hin.
    apply in_map_iff in Hin. destruct Hin as ([id n'] & E & Hj).
    cbn [snd] in E. inversion E; subst.
    unfold project_jobs in Hj. apply filter_In in Hj. cbn [fst] in Hj.
    exists g, id. tauto.
  - intros (g & id & Hitem & Hj & Hc). exists (p, g). split; [exact Hitem|].
    cbn [fst snd]. apply in_map_iff. exists (id, n). split; [reflexivity|].
    unfold project_jobs. apply filter_In. cbn [fst]. tauto.
Qed.

Lemma all_jobs_NoDup all : NoDup (Dict.keys all) -> NoDup (all_jobs all).
Proof.
  induction all as [|[p g] all IH]; intros Hnd; [constructor|].
  unfold Dict.keys in Hnd. cbn [map fst] in Hnd.
  inversion Hnd as [|? ? Hn Hnd']; subst.
  change (all_jobs ((p, g) :: all))
    with (List.app (map (fun j => (p, snd j)) (project_jobs g)) (all_jobs all)).
  apply NoDup_app.
  - rewrite <- (map_map snd (fun n => (p, n))).
    apply NoDup_map_inj; [intros x y _ _ E; now inversion E|].
    apply NoDup_map_filter, inspected_names_NoDup.
  - now apply IH.
  - intros x Hin Hin'. apply in_map_iff in Hin.
    destruct Hin as (j & <- & _).
    apply all_jobs_In in Hin'. destruct Hin' as (g' & id & Hitem & _).
    apply Hn. change p with (fst (p, g')). now apply in_map.
Qed.

Lemma gvp_name_no_slash p id n :
  has_char "/" p = false -> In (id, n) inspected_layers ->
  has_char "/" (gvp_name p n) = false.
Proof.
  intros Hp Hn. unfold gvp_name. rewrite has_char_append, Hp.
  now apply inspected_name_plain in Hn.
Qed.

Lemma gvp_path_inj a p id n p' id' n' :
  has_char "/" p = false -> has_char "/" p' = false ->
  In (id, n) inspected_layers -> In (id', n') inspected_layers ->
  gvp_path a p n = gvp_path a p' n' -> p = p' /\ id = id' /\ n = n'.
Proof.
  intros Hp Hp' Hn Hn' E. unfold gvp_path in E.
  rewrite (path_join_relative _ _ (gvp_name_no_slash p id n Hp Hn)) in E.
  rewrite (path_join_relative _ _ (gvp_name_no_slash p' id' n' Hp' Hn')) in E.
  apply append_inv_head in E. unfold gvp_name in E.
  apply split_at_last_dash in E;
    [|now apply inspected_name_plain in Hn
     |now apply inspected_name_plain in Hn'].
  destruct E as [-> E]. apply append_inv_tail in E. subst n'.
  repeat split.
  assert (H : (id, n) = (id', n)).
  { apply (map_inj_in snd inspected_layers); auto.
    apply inspected_names_NoDup. }
  now inversion H.
Qed.

Lemma all_writes_paths a all :
  map fst (all_writes a all) =
  map (fun pj => gvp_path a (fst pj) (snd pj)) (all_jobs all).
Proof.
  unfold all_writes, all_jobs.
  induction all as [|[p g] all IH]; cbn [flat_map fst snd]; [reflexivity|].
  rewrite !map_app, IH, !map_map. reflexivity.
Qed.

Lemma gvp_files_NoDup a all :
  NoDup (Dict.keys all) ->
  (forall p, In p (Dict.keys all) -> has_char "/" p = false) ->
  NoDup (map (fun pj => gvp_path a (fst pj) (snd pj)) (all_jobs all)).
Proof.
  intros Hnd Hslash. apply NoDup_map_inj; [|now apply all_jobs_NoDup].
  intros [p n] [p' n'] Hin Hin' E. cbn [fst snd] in E.
  apply all_jobs_In in Hin, Hin'.
  destruct Hin as (g & id & Hitem & Hj & _).
  destruct Hin' as (g' & id' & Hitem' & Hj' & _).
  apply (gvp_path_inj a p id n p' id' n') in E; auto.
  - destruct E as (-> & _ & ->). reflexivity.
  - apply Hslash. change p with (fst (p, g)). now apply in_map.
  - apply Hslash. change p' with (fst (p', g')). now apply in_map.
Qed.

(** *** The render loop *)

Lemma render_loop_fs a run files : forall w,
  fs (snd (for_in files (render a run) tt w)) = fs w.
Proof.
  induction files as [|f files IH]; intros w; cbn [for_in]; [reflexivity|].
  unfold bind at 1. unfold render at 1.
  unfold bind, print, popen_wait. cbn [fs stdout spawned].
  destruct (run _ _) as [code|]; [|reflexivity].
  destruct (negb (code =? 0)%Z); cbn [ret]; rewrite IH; reflexivity.
Qed.

Lemma print_all_run lines : forall w,
  for_in lines (fun line _ => print line) tt w =
  (Ok tt, mk_world (fs w) (List.app (stdout w) lines) (spawned w)).
Proof.
  induction lines as [|l lines IH]; intros w; cbn [for_in].
  - unfold ret. rewrite app_nil_r. now destruct w.
  - unfold bind, print at 1. rewrite IH. cbn [fs stdout spawned]. unfold snoc.
    now rewrite <- app_assoc.
Qed.

Lemma render_loop_run a run files :
  (forall n argv, run n argv <> None) ->
  forall w,
    for_in files (render a run) tt w =
    (Ok tt,
     mk_world (fs w)
              (List.app (stdout w)
                        (render_log a run (List.length (spawned w)) files))
              (List.app (spawned w) (map (render_argv a) files))).
Proof.
  intros Hrun. induction files as [|f files IH]; intros w;
    cbn [for_in render_log map].
  - unfold ret. rewrite !app_nil_r. now destruct w.
  - unfold bind at 1. unfold render at 1.
    fold (image_path a f). fold (render_argv a f).
    unfold bind, print, popen_wait. cbn [fs stdout spawned].
    destruct (run (List.length (spawned w)) (render_argv a f)) as [code|] eqn:E;
      [|now apply Hrun in E].
    fold (error_line code).
    destruct (negb (code =? 0)%Z); cbn [ret]; rewrite IH;
      cbn [fs stdout spawned]; unfold snoc;
      rewrite ?length_app, <- ?app_assoc; cbn [List.length app];
      rewrite Nat.add_1_r; reflexivity.
Qed.

Lemma stdout_write_effects a project gerbers js : forall w,
  stdout (fold_left (write_effect a project gerbers) js w) =
  List.app (stdout w)
    (map (fun j => "Writing '" ++ gvp_name project (snd j) ++ "'") js).
Proof.
  induction js as [|j js IH]; intros w; cbn [fold_left map].
  - now rewrite app_nil_r.
  - rewrite IH. cbn [write_effect stdout]. unfold snoc.
    now rewrite <- app_assoc.
Qed.

Lemma stdout_all_effects a all : forall w,
  stdout (fold_left (project_effect a) all w) =
  List.app (stdout w)
    (map (fun pj => "Writing '" ++ gvp_name (fst pj) (snd pj) ++ "'")
         (all_jobs all)).
Proof.
  induction all as [|[p g] all IH]; intros w; cbn [fold_left].
  - cbn. now rewrite app_nil_r.
  - rewrite IH. unfold project_effect at 1. rewrite stdout_write_effects.
    unfold all_jobs. cbn [flat_map fst snd].
    rewrite map_app, map_map, <- app_assoc. reflexivity.
Qed.

Lemma main_fs a listing run :
  fs (snd (main a listing run world0)) =
  set_all Dict.empty (all_writes a (find_gerber_files (path a) listing)).
Proof.
  unfold main, find_gerber_files.
  destruct (find_gerber_files_out (path a) listing) as [all found].
  cbn [fst]. unfold bind. rewrite print_all_run, compose_all_run.
  rewrite render_loop_fs, fs_all_effects. reflexivity.
Qed.

Lemma main_run a listing run :
  (forall n argv, run n argv <> None) ->
  main a listing run world0 =
  (Ok tt,
   mk_world
     (set_all Dict.empty (all_writes a (find_gerber_files (path a) listing)))
     (List.app (snd (find_gerber_files_out (path a) listing))
        (List.app
           (map (fun pj => "Writing '" ++ gvp_name (fst pj) (snd pj) ++ "'")
                (all_jobs (find_gerber_files (path a) listing)))
           (render_log a run 0 (gvp_files a listing))))
     (map (render_argv a) (gvp_files a listing))).
Proof.
  intros Hrun. unfold main, gvp_files, find_gerber_files.
  destruct (find_gerber_files_out (path a) listing) as [all found].
  cbn [fst snd]. unfold bind. rewrite print_all_run, compose_all_run.
  rewrite (render_loop_run a run _ Hrun).
  rewrite fs_all_effects, stdout_all_effects, spawned_all_effects.
  cbn [fs stdout spawned app List.length]. rewrite <- app_assoc. reflexivity.
Qed.

Lemma all_writes_In a all p g id n :
  In (p, g) all -> In (id, n) inspected_layers ->
  Dict.contains g id = true ->
  In (gvp_path a p n, gvp_text (composed_blocks g id (show_paste a)))
     (all_writes a all).
Proof.
  intros Hitem Hj Hc. unfold all_writes. apply in_flat_map.
  exists (p, g). split; [exact Hitem|]. cbn [fst snd].
  apply in_map_iff. exists (id, n). split; [reflexivity|].
  unfold project_jobs. apply filter_In. cbn [fst]. tauto.
Qed.

Lemma inspected_layers_spec id name :
  In (id, name) inspected_layers <->
  (id = "F_Cu" /\ name = "top") \/ (id = "B_Cu" /\ name = "bot")
  \/ exists k, (1 <= k <= 30)%Z
               /\ id = "In" ++ str_of_Z k ++ "_Cu"
               /\ name = "in" ++ str_of_Z k.
Proof.
  unfold inspected_layers, range. cbn [In]. rewrite in_map_iff. split.
  - intros [E | [E | (i & E & Hi)]]; try (inversion E; auto; fail).
    right. right. apply in_map_iff in Hi. destruct Hi as (m & <- & Hm).
    apply in_seq in Hm. exists (Z.of_nat m - 1)%Z.
    inversion E. repeat split; lia.
  - intros [[-> ->] | [[-> ->] | (k & Hk & -> & ->)]]; auto.
    right. right. exists (k + 1)%Z. split.
    + now replace (k + 1 - 1)%Z with k by lia.
    + apply in_map_iff. exists (Z.to_nat (k + 1)). split; [lia|].
      apply in_seq. lia.
Qed.

(** C3, as amended: for a directory whose entries are plain names, the
    driver writes one project file for every project and every inspected
    copper layer the project has a file for: the top layer, the bottom
    layer and the inner layers [In1_Cu] to [In30_Cu].  The file is named
    after the project and the display name of the layer, lies in the scanned
    directory and holds the complete composition for that layer; distinct
    pairs get distinct files and no other file is written. *)
Theorem one_project_file_per_copper_layer a listing run :
  Forall (fun f => has_char "/" f = false) listing ->
  let all_gerbers := find_gerber_files (path a) listing in
  let files := fs (snd (main a listing run world0)) in
  (forall project gerbers id name,
      Dict.get all_gerbers project = Some gerbers ->
      In (id, name) inspected_layers ->
      Dict.contains gerbers id = true ->
      Dict.get files (path_join (path a) (project ++ "-" ++ name ++ ".gvp"))
      = Some (gvp_text (composed_blocks gerbers id (show_paste a))))
  /\ (forall f,
        In f (Dict.keys files) ->
        exists project gerbers id name,
          Dict.get all_gerbers project = Some gerbers
          /\ In (id, name) inspected_layers
          /\ Dict.contains gerbers id = true
          /\ f = path_join (path a) (project ++ "-" ++ name ++ ".gvp"))
  /\ (forall project id name project' id' name',
        In project (Dict.keys all_gerbers) ->
        In project' (Dict.keys all_gerbers) ->
        In (id, name) inspected_layers ->
        In (id', name') inspected_layers ->
        path_join (path a) (project ++ "-" ++ name ++ ".gvp")
        = path_join (path a) (project' ++ "-" ++ name' ++ ".gvp") ->
        project = project' /\ id = id')
  /\ List.length (Dict.keys files)
     = List.length (all_jobs all_gerbers)
  /\ (forall id name,
        In (id, name) inspected_layers <->
        (id = "F_Cu" /\ name = "top") \/ (id = "B_Cu" /\ name = "bot")
        \/ exists k, (1 <= k <= 30)%Z
                     /\ id = "In" ++ str_of_Z k ++ "_Cu"
                     /\ name = "in" ++ str_of_Z k).
Proof.
  intros Hslash all_gerbers files.
  destruct (find_gerber_files_keys (path a) listing) as [Hnd _].
  fold all_gerbers in Hnd.
  assert (Hp : forall p, In p (Dict.keys all_gerbers) -> has_char "/" p = false)
    by (intros p; apply project_no_slash; exact Hslash).
  assert (Hfiles : files = all_writes a all_gerbers).
  { unfold files. rewrite main_fs. fold all_gerbers.
    rewrite set_all_fresh; [reflexivity|].
    cbn [Dict.keys Dict.empty map app]. rewrite all_writes_paths.
    now apply gvp_files_NoDup. }
  assert (Hkeys : Dict.keys files
                  = map (fun pj => gvp_path a (fst pj) (snd pj))
                        (all_jobs all_gerbers)).
  { rewrite Hfiles. apply all_writes_paths. }
  repeat split.
  - intros project gerbers id name Hg Hj Hc.
    apply In_get.
    + rewrite Hkeys. now apply gvp_files_NoDup.
    + rewrite Hfiles. apply all_writes_In; auto. now apply get_In.
  - intros f Hf. rewrite Hkeys in Hf. apply in_map_iff in Hf.
    destruct Hf as ([p n] & <- & Hin). apply all_jobs_In in Hin.
    destruct Hin as (g & id & Hitem & Hj & Hc).
    exists p, g, id, n. repeat split; auto. now apply In_get.
  - eapply (gvp_path_inj a project id name project' id' name'); eauto.
  - eapply (gvp_path_inj a project id name project' id' name'); eauto.
  - rewrite Hkeys. apply length_map.
  - apply inspected_layers_spec.
  - apply inspected_layers_spec.
Qed.

Lemma one_project_file_per_copper_layer_witness :
  let files := fs (snd (main demo_args demo_listing demo_run world0)) in
  Dict.get files "d/p-in1.gvp"
  = Some (gvp_text
            (composed_blocks [("B_Cu", "d/p-B_Cu.gbl"); ("F_Cu", "d/p-F_Cu.gtl");
                              ("F_Mask", "d/p-F_Mask.gts");
                              ("In1_Cu", "d/p-In1_Cu.g2")]
                             "In1_Cu" false))
  /\ List.length (Dict.keys files)
     = List.length (all_jobs (find_gerber_files (path demo_args) demo_listing)).
Proof.
  assert (Hplain : Forall (fun f => has_char "/" f = false) demo_listing)
    by repeat constructor.
  split.
  - apply (proj1 (one_project_file_per_copper_layer
                    demo_args demo_listing demo_run Hplain)
                 "p" _ "In1_Cu" "in1").
    + vm_compute. reflexivity.
    + vm_compute. auto 10.
    + vm_compute. reflexivity.
  - apply (one_project_file_per_copper_layer demo_args demo_listing demo_run
                                             Hplain).
Defined.

(** C3, as stated: an inner copper layer beyond the thirtieth is in the
    mapping of its project, yet no project file is written for it. *)
Lemma inner_layer_31_gets_no_file :
  lookup2 (find_gerber_files "d" ["p-In31_Cu.g31"]) "p" "In31_Cu"
  = Some "d/p-In31_Cu.g31"
  /\ fs (snd (main demo_args ["p-In31_Cu.g31"] demo_run world0)) = Dict.empty.
Proof. split; vm_compute; reflexivity. Qed.

(** *** Renderer failures *)

Lemma render_log_error a run files : forall n i f code,
  nth_error files i = Some f ->
  run (n + i) (render_argv a f) = Some code ->
  code <> 0%Z ->
  In (error_line code) (render_log a run n files).
Proof.
  induction files as [|f0 files IH]; intros n i f code Hnth Hrun Hcode.
  - destruct i; discriminate.
  - destruct i as [|i]; cbn [nth_error] in Hnth; cbn [render_log].
    + inversion Hnth; subst. rewrite Nat.add_0_r in Hrun. rewrite Hrun.
      apply Z.eqb_neq in Hcode. rewrite Hcode. right. now left.
    + right. apply in_or_app. right. apply (IH (S n) i f code); auto.
      now rewrite <- Nat.add_succ_comm in Hrun.
Qed.

(** C9: when every renderer process can be started, the driver runs one
    process per project file, in order, whatever the exit codes are; every
    nonzero exit code is reported by an error line that names it; [main]
    returns normally, so the exit status of the process is 0. *)
Theorem render_failures_are_logged a listing run :
  (forall n argv, run n argv <> None) ->
  let r := main a listing run world0 in
  fst r = Ok tt
  /\ exit_status (fst r) = 0%Z
  /\ spawned (snd r) = map (render_argv a) (gvp_files a listing)
  /\ (forall i f code,
        nth_error (gvp_files a listing) i = Some f ->
        run i (render_argv a f) = Some code ->
        code <> 0%Z ->
        In (" ERROR! Gerbv failed with " ++ str_of_Z code ++ "!")
           (stdout (snd r))).
Proof.
  intros Hrun r. subst r. rewrite (main_run a listing run Hrun).
  cbn [fst snd spawned stdout exit_status]. repeat split.
  intros i f code Hnth Hi Hcode.
  apply in_or_app. right. apply in_or_app. right.
  now apply (render_log_error a run _ 0 i f code).
Qed.

Lemma render_failures_are_logged_witness :
  In " ERROR! Gerbv failed with 2!"
     (stdout (snd (main demo_args demo_listing demo_run world0))).
Proof.
  assert (Hrun : forall n argv, demo_run n argv <> None).
  { intros n argv. unfold demo_run. destruct (Nat.eqb n 0); discriminate. }
  apply (proj2 (proj2 (proj2 (render_failures_are_logged
           demo_args demo_listing demo_run Hrun)))
           0%nat "d/p-top.gvp" 2%Z).
  - vm_compute. reflexivity.
  - vm_compute. reflexivity.
  - discriminate.
Defined.

(** ** Classifying again *)

Lemma fold_find_accepted path files : forall st,
  fold_left (find_step path) files st =
  fold_left (find_step path) (filter accepted files) st.
Proof.
  induction files as [|f files IH]; intros [g out]; cbn [fold_left filter];
    [reflexivity|].
  unfold accepted at 1. destruct (classify f) as [[p l]|] eqn:Hc.
  - cbn [fold_left]. apply IH.
  - rewrite find_step_classify, Hc. apply IH.
Qed.

Lemma sorted_unique l1 : forall l2,
  StronglySorted le l1 -> StronglySorted le l2 ->
  NoDup l1 -> NoDup l2 ->
  (forall x, In x l1 <-> In x l2) -> l1 = l2.
Proof.
  induction l1 as [|x l1 IH]; intros [|y l2] S1 S2 N1 N2 Hsame.
  - reflexivity.
  - exfalso. apply (Hsame y). now left.
  - exfalso. apply (Hsame x). now left.
  - apply StronglySorted_inv in S1, S2.
    destruct S1 as [S1 A1], S2 as [S2 A2].
    rewrite Forall_forall in A1, A2.
    inversion N1 as [|? ? Hx N1']; subst.
    inversion N2 as [|? ? Hy N2']; subst.
    assert (Exy : x = y).
    { destruct (proj1 (Hsame x) (or_introl eq_refl)) as [E | Hin]; [auto|].
      destruct (proj2 (Hsame y) (or_introl eq_refl)) as [E | Hin']; [auto|].
      apply String.leb_antisym; [now apply A1 | now apply A2]. }
    subst y. f_equal. apply IH; auto.
    intros z. split; intros Hz.
    + destruct (proj1 (Hsame z) (or_intror Hz)) as [E | Hin]; [|exact Hin].
      subst z. contradiction.
    + destruct (proj2 (Hsame z) (or_intror Hz)) as [E | Hin]; [|exact Hin].
      subst z. contradiction.
Qed.

Lemma StronglySorted_filter (p : string -> bool) l :
  StronglySorted le l -> StronglySorted le (filter p l).
Proof.
  induction 1 as [|x l S IH A]; cbn [filter]; [constructor|].
  destruct (p x); [|exact IH]. constructor; [exact IH|].
  rewrite Forall_forall in *. intros y Hy. apply filter_In in Hy. now apply A.
Qed.

Lemma filter_sorted_same l l' :
  NoDup l -> NoDup l' ->
  (forall x, accepted x = true -> (In x l' <-> In x l)) ->
  filter accepted (sorted l') = filter accepted (sorted l).
Proof.
  intros N N' Hsame. apply sorted_unique.
  - apply StronglySorted_filter, sorted_sorted.
  - apply StronglySorted_filter, sorted_sorted.
  - apply NoDup_filter. apply (Permutation_NoDup (sorted_perm l')), N'.
  - apply NoDup_filter. apply (Permutation_NoDup (sorted_perm l)), N.
  - intros x. rewrite !filter_In. split; intros [Hin Hacc]; split; auto.
    + apply (Permutation_in _ (sorted_perm l)). apply (Hsame x Hacc).
      apply (Permutation_in _ (Permutation_sym (sorted_perm l'))). exact Hin.
    + apply (Permutation_in _ (sorted_perm l')). apply (Hsame x Hacc).
      apply (Permutation_in _ (Permutation_sym (sorted_perm l))). exact Hin.
Qed.

Lemma basename_gvp s : forall n, s = n ++ ".gvp" ->
  exists n', basename s = n' ++ ".gvp".
Proof.
  induction s as [|c s IH]; intros n Hn.
  - destruct n; discriminate.
  - cbn [basename]. destruct n as [|c' n].
    + inversion Hn; subst. exists EmptyString. reflexivity.
    + inversion Hn; subst. destruct (has_char "/" (n ++ ".gvp")).
      * now apply (IH n).
      * destruct (Ascii.eqb c' "/"); [exists n | exists (String c' n)];
          reflexivity.
Qed.

Lemma path_join_gvp a n : exists n', path_join a (n ++ ".gvp") = n' ++ ".gvp".
Proof.
  unfold path_join. destruct (startswith (n ++ ".gvp") "/"); [now exists n|].
  destruct (String.eqb a EmptyString || endswith a "/").
  - exists (a ++ n). now rewrite append_assoc.
  - exists (a ++ "/" ++ n). now rewrite !append_assoc.
Qed.

Lemma keys_set_all kvs : forall d k,
  In k (Dict.keys (set_all d kvs)) -> In k (Dict.keys d) \/ In k (map fst kvs).
Proof.
  induction kvs as [|[k0 v0] kvs IH]; intros d k; cbn [set_all fold_left map].
  - auto.
  - intros H. apply IH in H. cbn [fst snd] in H. destruct H as [H | H].
    + rewrite keys_set in H. destruct (Dict.contains d k0); [now left|].
      apply in_app_or in H. destruct H as [H | [<- | []]]; [now left|].
      right. now left.
    + right. now right.
Qed.

Lemma written_names_gvp a listing run f :
  In f (Dict.keys (fs (snd (main a listing run world0)))) ->
  exists n, basename f = n ++ ".gvp".
Proof.
  rewrite main_fs. intros H. apply keys_set_all in H.
  destruct H as [[] | H]. rewrite all_writes_paths in H.
  apply in_map_iff in H. destruct H as ([p n] & <- & _). cbn [fst snd].
  unfold gvp_path, gvp_name.
  destruct (path_join_gvp (path a) (p ++ "-" ++ n)) as [n' Hn'].
  rewrite !append_assoc in Hn'. cbn [append] in Hn'.
  apply (basename_gvp _ n'). exact Hn'.
Qed.

(** C4: when the directory after the run holds what it held before and the
    project files the driver wrote, classifying it again gives the same
    result, hence the same (project, layer) pairs; no name that ends in
    [.gvp] is ever classified. *)
Theorem reclassification_unchanged a listing listing' run :
  NoDup listing -> NoDup listing' ->
  (forall f, In f listing' <->
             In f listing
             \/ In f (map basename
                          (Dict.keys (fs (snd (main a listing run world0)))))) ->
  find_gerber_files_out (path a) listing'
  = find_gerber_files_out (path a) listing
  /\ find_gerber_files (path a) listing' = find_gerber_files (path a) listing
  /\ (forall project layer,
        lookup2 (find_gerber_files (path a) listing') project layer
        = lookup2 (find_gerber_files (path a) listing) project layer)
  /\ (forall name, classify (name ++ ".gvp") = None).
Proof.
  intros N N' Hdir.
  assert (E : find_gerber_files_out (path a) listing'
              = find_gerber_files_out (path a) listing).
  { unfold find_gerber_files_out.
    rewrite (fold_find_accepted _ (sorted listing')).
    rewrite (fold_find_accepted _ (sorted listing)).
    f_equal. apply filter_sorted_same; auto.
    intros x Hacc. rewrite Hdir. split; [|now left].
    intros [H | H]; [exact H|]. exfalso.
    apply in_map_iff in H. destruct H as (f & <- & Hf).
    apply written_names_gvp in Hf. destruct Hf as [n Hn].
    unfold accepted in Hacc. rewrite Hn, classify_gvp in Hacc. discriminate. }
  unfold find_gerber_files. rewrite E.
  repeat split. apply classify_gvp.
Qed.

Lemma NoDup_by_nodup (l : list string) : nodup string_dec l = l -> NoDup l.
Proof. intros H. rewrite <- H. apply NoDup_nodup. Qed.

Lemma reclassification_unchanged_witness :
  find_gerber_files (path demo_args) demo_listing_after
  = find_gerber_files (path demo_args) demo_listing.
Proof.
  apply (reclassification_unchanged demo_args demo_listing demo_listing_after
                                    demo_run).
  - apply NoDup_by_nodup. vm_compute. reflexivity.
  - apply NoDup_by_nodup. vm_compute. reflexivity.
  - intros f.
    assert (E : map basename
                  (Dict.keys (fs (snd (main demo_args demo_listing demo_run
                                            world0))))
                = ["p-top.gvp"; "p-bot.gvp"; "p-in1.gvp"; "q-top.gvp"])
      by (vm_compute; reflexivity).
    rewrite E. unfold demo_listing_after. rewrite in_app_iff. tauto.
Defined.

(** ** Names of the expected form *)

Lemma many_complete p s1 : forall s2 k out,
  all p s1 = true -> k s2 = Some out ->
  exists out', many p (s1 ++ s2) k = Some out'.
Proof.
  induction s1 as [|c s1 IH]; intros s2 k out Hall Hk; cbn [append].
  - destruct s2 as [|c s2]; cbn [many]; [eauto|].
    destruct (p c); [|eauto]. destruct (many p s2 k); eauto.
  - cbn [all] in Hall. apply andb_prop in Hall. destruct Hall as [Hc Hall].
    cbn [many]. rewrite Hc.
    destruct (IH s2 k out Hall Hk) as [out' ->]. eauto.
Qed.

Lemma run_complete r s1 s2 caps :
  sem r s1 s2 caps ->
  forall g k out,
    k s2 (List.app caps g) = Some out ->
    exists out', run r (s1 ++ s2) g k = Some out'.
Proof.
  induction 1 as [p c rest Hc | p s rest Hall
                 | r1 r2 s1 s2 rest g1 g2 H1 IH1 H2 IH2
                 | r1 r2 s rest g0 H1 IH1 | r1 r2 s rest g0 H2 IH2
                 | n r s rest g0 H1 IH1 | rest Heol];
    intros g k out Hk; cbn [run].
  - cbn [chr append]. rewrite Hc. eauto.
  - apply (many_complete p s rest (fun s' => k s' g) out Hall). exact Hk.
  - rewrite append_assoc.
    rewrite <- app_assoc in Hk.
    destruct (IH2 (List.app g1 g) k out Hk) as [out2 Hout2].
    apply (IH1 g (fun s' g' => run r2 s' g' k) out2). exact Hout2.
  - destruct (IH1 g k out Hk) as [out' ->]. eauto.
  - destruct (run r1 (s ++ rest) g k); [eauto|]. apply (IH2 g k out Hk).
  - apply (IH1 g (fun s' g' => k s' ((n, consumed (s ++ rest) s') :: g')) out).
    rewrite consumed_append. exact Hk.
  - cbn [append]. rewrite Heol. eauto.
Qed.

(** greedy repetition that cannot go on, or need not *)
Lemma many_stop p a : forall b k out,
  all p a = true -> k b = Some out ->
  (forall u v, b = u ++ v -> u <> EmptyString -> k v = None) ->
  many p (a ++ b) k = Some out.
Proof.
  assert (Hb : forall b k, 
             (forall u v, b = u ++ v -> u <> EmptyString -> k v = None) ->
             many p b k = k b).
  { induction b as [|c b IH]; intros k Hlater; cbn [many]; [reflexivity|].
    destruct (p c); [|reflexivity].
    rewrite IH.
    - rewrite (Hlater (chr c) b); [reflexivity | reflexivity | discriminate].
    - intros u v -> Hu. apply (Hlater (String c u) v); [reflexivity|discriminate]. }
  induction a as [|c a IH]; intros b k out Hall Hk Hlater; cbn [append].
  - rewrite Hb by exact Hlater. exact Hk.
  - cbn [all] in Hall. apply andb_prop in Hall. destruct Hall as [Hc Hall].
    cbn [many]. rewrite Hc. now rewrite (IH b k out Hall Hk Hlater).
Qed.

Lemma many_stop_at p a : forall b k out,
  all p a = true ->
  match b with EmptyString => True | String c _ => p c = false end ->
  k b = Some out ->
  many p (a ++ b) k = Some out.
Proof.
  induction a as [|c a IH]; intros b k out Hall Hb Hk; cbn [append].
  - destruct b as [|c b]; cbn [many]; [exact Hk|]. now rewrite Hb.
  - cbn [all] in Hall. apply andb_prop in Hall. destruct Hall as [Hc Hall].
    cbn [many]. rewrite Hc. now rewrite (IH b k out Hall Hb Hk).
Qed.

Lemma all_impl (p q : ascii -> bool) s :
  (forall c, p c = true -> q c = true) -> all p s = true -> all q s = true.
Proof.
  intros Hpq. induction s as [|c s IH]; cbn [all]; [reflexivity|].
  intros H. apply andb_prop in H. destruct H as [Hc Hs].
  now rewrite (Hpq c Hc), IH.
Qed.

Lemma word_not_dash c : is_word c = true -> not_dash c = true.
Proof.
  unfold not_dash. destruct (Ascii.eqb_spec c "-") as [->|]; [|reflexivity].
  discriminate.
Qed.

Lemma dash_free_suffix u : forall s v,
  all not_dash s = true -> s = u ++ v ->
  match v with EmptyString => True | String c _ => Ascii.eqb c "-" = false end.
Proof.
  induction u as [|x u IH]; intros s v Hs ->; cbn [append] in Hs.
  - destruct v as [|c v]; [exact I|]. cbn [all] in Hs.
    apply andb_prop in Hs. destruct Hs as [Hc _].
    now apply negb_true_iff in Hc.
  - cbn [all] in Hs. apply andb_prop in Hs. destruct Hs as [_ Hs].
    now apply (IH (u ++ v)).
Qed.

(** The name pattern reads a name of the expected form as intended. *)
Lemma file_regex_match p l e :
  all is_dot p = true ->
  l <> EmptyString -> all is_word l = true ->
  e <> EmptyString -> all is_word e = true ->
  re_match file_regex (p ++ "-" ++ l ++ "." ++ e)
  = Some [(3, e); (2, l); (1, p)].
Proof.
  intros Hp Hl Hlw He Hew.
  destruct l as [|cl l]; [congruence|]. destruct e as [|ce e]; [congruence|].
  cbn [all] in Hlw, Hew. apply andb_prop in Hlw, Hew.
  destruct Hlw as [Hcl Hlw], Hew as [Hce Hew].
  unfold re_match, file_regex. cbn [run].
  apply many_stop; [exact Hp | |].
  - cbn [append run Chr]. rewrite Ascii.eqb_refl. unfold Many1. cbn [run].
    rewrite Hcl.
    rewrite (many_stop_at is_word l ("." ++ String ce e) _
               [(3, String ce e); (2, String cl l); (1, p)] Hlw);
      [reflexivity | reflexivity |].
    cbn -[consumed is_word many].
    rewrite Hce.
    rewrite <- (append_nil_r e) at 1.
    rewrite (many_stop_at is_word e EmptyString _
               [(3, String ce e); (2, String cl l); (1, p)] Hew);
      [reflexivity | exact I |].
    cbn -[consumed].
    rewrite (consumed_append p).
    replace (consumed (String cl (l ++ String "." (String ce e)))
                      (String "." (String ce e)))
      with (String cl l)
      by (symmetry;
          apply (consumed_append (String cl l) (String "." (String ce e)))).
    replace (consumed (String ce e) EmptyString) with (String ce e)
      by (symmetry; rewrite <- (append_nil_r (String ce e)) at 1;
          apply consumed_append).
    reflexivity.
  - intros u v Huv Hu. destruct u as [|x u]; [congruence|].
    cbn [append] in Huv. inversion Huv as [[Hx Hrest]].
    assert (Hnd : all not_dash (String cl l ++ "." ++ String ce e) = true).
    { assert (Hl' : all is_word (String cl l) = true)
        by (cbn [all]; now rewrite Hcl).
      assert (He' : all is_word (String ce e) = true)
        by (cbn [all]; now rewrite Hce).
      rewrite all_append, (all_impl _ _ _ word_not_dash Hl').
      rewrite all_append, (all_impl _ _ _ word_not_dash He').
      reflexivity. }
    pose proof (dash_free_suffix u _ v Hnd Hrest) as Hv.
    cbn [run Chr]. destruct v as [|c v]; [reflexivity|].
    rewrite Ascii.eqb_sym, Hv. reflexivity.
Qed.

Lemma classify_expected p l e :
  all is_dot p = true ->
  l <> EmptyString -> all is_word l = true ->
  e <> EmptyString -> all is_word e = true ->
  classify (p ++ "-" ++ l ++ "." ++ e)
  = match re_match ext_regex (lower e) with
    | Some _ => Some (p, l)
    | None => None
    end.
Proof.
  intros Hp Hl Hlw He Hew. unfold classify.
  rewrite (file_regex_match p l e Hp Hl Hlw He Hew). reflexivity.
Qed.

Lemma many_total p s k :
  (forall s', k s' <> None) -> many p s k <> None.
Proof.
  intros Hk. induction s as [|c s IH]; cbn [many]; [apply Hk|].
  destruct (p c); [|apply Hk]. destruct (many p s k); [discriminate|apply Hk].
Qed.

Lemma digits1_cons ds :
  digits1 ds = true ->
  exists d ds', ds = String d ds' /\ is_digit d = true.
Proof.
  unfold digits1. destruct ds as [|d ds']; [discriminate|].
  cbn [String.eqb negb andb all]. intros H. apply andb_prop in H.
  exists d, ds'. tauto.
Qed.

(** every extension of the whitelist passes the extension test *)
Lemma whitelist_passes ext :
  spec_whitelist ext = true -> re_match ext_regex ext <> None.
Proof.
  unfold spec_whitelist. destruct ext as [|c rest]; [discriminate|].
  destruct (Ascii.eqb_spec c "g") as [->|Hc].
  - intros H. unfold re_match, ext_regex. cbn [run Chr Many1].
    rewrite Ascii.eqb_refl.
    apply orb_prop in H. destruct H as [H | H];
      [apply orb_prop in H; destruct H as [H | H]|].
    + destruct rest as [|s [|k [|x rest]]]; try discriminate.
      apply andb_prop in H. destruct H as [Hs Hk]. rewrite Hs, Hk. discriminate.
    + apply digits1_cons in H. destruct H as (d & ds & -> & Hd).
      match goal with
      | |- match ?x with _ => _ end <> None => destruct x; [discriminate|]
      end.
      rewrite Hd.
      match goal with
      | |- match ?x with _ => _ end <> None =>
          destruct x eqn:E; [discriminate|]
      end.
      exfalso. revert E. apply many_total. discriminate.
    + destruct rest as [|m ds]; [discriminate|].
      apply andb_prop in H. destruct H as [Hm H].
      apply Ascii.eqb_eq in Hm. subst m.
      apply digits1_cons in H. destruct H as (d & ds' & -> & Hd).
      cbn -[many]. rewrite Hd.
      match goal with
      | |- match ?x with _ => _ end <> None =>
          destruct x eqn:E; [discriminate|]
      end.
      exfalso. revert E. apply many_total. discriminate.
  - intros H. apply String.eqb_eq in H. rewrite H. discriminate.
Qed.

(** A name of the form project, hyphen, layer, dot, extension with an
    extension of the whitelist is classified under that project and
    layer. *)
Lemma whitelisted_is_classified p l e :
  all is_dot p = true ->
  l <> EmptyString -> all is_word l = true ->
  e <> EmptyString -> all is_word e = true ->
  spec_whitelist (lower e) = true ->
  classify (p ++ "-" ++ l ++ "." ++ e) = Some (p, l).
Proof.
  intros Hp Hl Hlw He Hew Hext.
  rewrite (classify_expected p l e Hp Hl Hlw He Hew).
  apply whitelist_passes in Hext.
  now destruct (re_match ext_regex (lower e)).
Qed.

(** ** The extension test *)

(** C1, at a failing input: the extension test is anchored at the start
    only and the dot of the name pattern matches any character, so a name
    whose extension merely starts like a recognised one, or whose extension
    follows a hyphen, is classified. *)
Theorem extension_prefix_is_enough :
  spec_whitelist (lower "gtl_bak") = false
  /\ classify "board-F_Cu.gtl_bak" = Some ("board", "F_Cu")
  /\ find_gerber_files "d" ["board-F_Cu.gtl_bak"]
     = [("board", [("F_Cu", "d/board-F_Cu.gtl_bak")])]
  /\ classify "board-In1_Cu-g2" = Some ("board", "In1_Cu").
Proof. repeat split; vm_compute; reflexivity. Qed.

(** * Further properties *)

(** *** Where the stored paths come from *)

Lemma fold_find_origin path p l v files : forall st,
  lookup2 (fst (fold_left (find_step path) files st)) p l = Some v ->
  lookup2 (fst st) p l = Some v
  \/ exists f, In f files /\ classify f = Some (p, l) /\ v = path_join path f.
Proof.
  induction files as [|f files IH]; intros [g out] H; cbn [fold_left] in H.
  - now left.
  - apply IH in H. destruct H as [H | (f' & Hin & Hc & Hv)].
    + rewrite find_step_classify in H.
      destruct (classify f) as [[p' l']|] eqn:Hc; [|now left].
      cbn [fst] in H.
      destruct (string_dec p p') as [->|Hp];
        [destruct (string_dec l l') as [->|Hl]|].
      * rewrite lookup2_add_same in H. inversion H; subst.
        right. exists f. split; [now left | auto].
      * rewrite lookup2_add_other in H by congruence. now left.
      * rewrite lookup2_add_other in H by congruence. now left.
    + right. exists f'. split; [now right | auto].
Qed.

Lemma fold_find_kept path p l files : forall st,
  lookup2 (fst st) p l <> None ->
  lookup2 (fst (fold_left (find_step path) files st)) p l <> None.
Proof.
  induction files as [|f files IH]; intros [g out] H; cbn [fold_left];
    [exact H|].
  apply IH. rewrite find_step_classify.
  destruct (classify f) as [[p' l']|] eqn:Hc; [|exact H]. cbn [fst].
  destruct (string_dec p p') as [->|Hp];
    [destruct (string_dec l l') as [->|Hl]|].
  - rewrite lookup2_add_same. discriminate.
  - rewrite lookup2_add_other by congruence. exact H.
  - rewrite lookup2_add_other by congruence. exact H.
Qed.

Lemma fold_find_stored path p l f files : forall st,
  In f files -> classify f = Some (p, l) ->
  lookup2 (fst (fold_left (find_step path) files st)) p l <> None.
Proof.
  induction files as [|f0 files IH]; intros [g out] Hin Hc; [destruct Hin|].
  cbn [fold_left]. destruct Hin as [-> | Hin]; [|now apply IH].
  apply fold_find_kept. rewrite find_step_classify, Hc. cbn [fst].
  rewrite lookup2_add_same. discriminate.
Qed.

(** X1: every path the classifier stores is the joined path of an entry of
    the directory that classifies to that project and layer, and every
    entry that is classified leaves its project and layer in the result. *)
Theorem stored_paths_come_from_listing path listing :
  (forall project layer v,
      lookup2 (find_gerber_files path listing) project layer = Some v ->
      exists file, In file listing
                   /\ classify file = Some (project, layer)
                   /\ v = path_join path file)
  /\ (forall file project layer,
        In file listing -> classify file = Some (project, layer) ->
        lookup2 (find_gerber_files path listing) project layer <> None).
Proof.
  unfold find_gerber_files, find_gerber_files_out. split.
  - intros p l v H. apply fold_find_origin in H.
    destruct H as [H | (f & Hin & Hc & Hv)]; [discriminate H|].
    exists f. split; [|auto].
    apply (Permutation_in _ (Permutation_sym (sorted_perm listing))), Hin.
  - intros f p l Hin Hc. apply (fold_find_stored path p l f); [|exact Hc].
    apply (Permutation_in _ (sorted_perm listing)), Hin.
Qed.

Lemma stored_paths_come_from_listing_witness :
  (exists file, In file demo_listing
                /\ classify file = Some ("p", "In1_Cu")
                /\ "d/p-In1_Cu.g2" = path_join "d" file)
  /\ lookup2 (find_gerber_files "d" demo_listing) "q" "F_Cu" <> None.
Proof.
  split.
  - apply (proj1 (stored_paths_come_from_listing "d" demo_listing)).
    vm_compute. reflexivity.
  - apply (proj2 (stored_paths_come_from_listing "d" demo_listing)
                 "q-F_Cu.gtl").
    + vm_compute. auto 10.
    + vm_compute. reflexivity.
Defined.

(** *** The order of the listing *)

(** X2: the result of the classifier, and what it prints, do not depend on
    the order in which the directory is listed. *)
Theorem listing_order_is_irrelevant path listing listing' :
  NoDup listing -> Permutation listing listing' ->
  find_gerber_files_out path listing' = find_gerber_files_out path listing.
Proof.
  intros N P. unfold find_gerber_files_out. f_equal.
  apply sorted_unique.
  - apply sorted_sorted.
  - apply sorted_sorted.
  - apply (Permutation_NoDup (sorted_perm listing')).
    apply (Permutation_NoDup P), N.
  - apply (Permutation_NoDup (sorted_perm listing)), N.
  - intros x. split; intros H.
    + apply (Permutation_in _ (sorted_perm listing)).
      apply (Permutation_in _ (Permutation_sym P)).
      apply (Permutation_in _ (Permutation_sym (sorted_perm listing'))), H.
    + apply (Permutation_in _ (sorted_perm listing')).
      apply (Permutation_in _ P).
      apply (Permutation_in _ (Permutation_sym (sorted_perm listing))), H.
Qed.

Lemma listing_order_is_irrelevant_witness :
  find_gerber_files_out "d" (rev demo_listing)
  = find_gerber_files_out "d" demo_listing.
Proof.
  apply listing_order_is_irrelevant.
  - apply NoDup_by_nodup. vm_compute. reflexivity.
  - apply Permutation_rev.
Defined.

(** *** The lines printed *)

Lemma fold_find_out path files : forall st,
  snd (fold_left (find_step path) files st)
  = List.app (snd st) (map found_line (filter accepted files)).
Proof.
  induction files as [|f files IH]; intros [g out]; cbn [fold_left filter].
  - cbn. now rewrite app_nil_r.
  - rewrite IH, find_step_classify. unfold accepted at 2.
    destruct (classify f) as [[p l]|]; cbn [snd map]; [|reflexivity].
    unfold snoc. now rewrite <- app_assoc.
Qed.

(** X3: the classifier prints one line per stored entry, in ascending
    order of the entries, and nothing else. *)
Theorem one_line_per_stored_entry path listing :
  snd (find_gerber_files_out path listing)
  = map found_line (filter accepted (sorted listing)).
Proof. unfold find_gerber_files_out. now rewrite fold_find_out. Qed.

(** *** Nothing to classify *)

Lemma fold_find_none path files : forall st,
  (forall f, In f files -> classify f = None) ->
  fold_left (find_step path) files st = st.
Proof.
  induction files as [|f files IH]; intros [g out] H; cbn [fold_left];
    [reflexivity|].
  rewrite find_step_classify, (H f (or_introl eq_refl)).
  apply IH. intros f' Hf'. apply H. now right.
Qed.

(** X4: when no entry of the directory is classified (an empty directory
    included), the result is empty and the driver writes no file, prints
    nothing, starts no renderer and returns normally. *)
Theorem nothing_classified_nothing_done a listing run :
  (forall f, In f listing -> classify f = None) ->
  find_gerber_files (path a) listing = Dict.empty
  /\ main a listing run world0 = (Ok tt, world0).
Proof.
  intros H.
  assert (E : find_gerber_files_out (path a) listing = (Dict.empty, [])).
  { unfold find_gerber_files_out. apply fold_find_none.
    intros f Hf. apply H.
    apply (Permutation_in _ (Permutation_sym (sorted_perm listing))), Hf. }
  unfold find_gerber_files, main. rewrite E. split; reflexivity.
Qed.

Lemma nothing_classified_nothing_done_witness :
  main demo_args ["readme.txt"; "p-top.gvp"; "notes"] demo_run world0
  = (Ok tt, world0).
Proof.
  apply (nothing_classified_nothing_done demo_args).
  intros f [<- | [<- | [<- | []]]]; vm_compute; reflexivity.
Defined.


(** *** The extension test *)

Lemma digits1_intro s : s <> EmptyString -> all is_digit s = true ->
  digits1 s = true.
Proof.
  intros Hs Hd. unfold digits1. rewrite Hd.
  destruct s; [congruence | reflexivity].
Qed.

Lemma ext_regex_sem s rest m :
  sem ext_regex s rest m -> spec_whitelist s = true.
Proof.
  unfold ext_regex. intros H. sem_inv;
    cbn [chr append spec_whitelist]; rewrite ?Ascii.eqb_refl.
  all: try (repeat match goal with
                   | H : one_of _ _ = true |- _ => rewrite H; clear H
                   end; reflexivity).
  all: try (match goal with
            | Hn : ?s <> EmptyString, Ha : all is_digit ?s = true |- _ =>
                rewrite (digits1_intro s Hn Ha)
            end; cbn [andb]; now rewrite ?orb_true_r).
Qed.

Lemma whitelist_prefix_passes w tail :
  spec_whitelist w = true -> re_match ext_regex (w ++ tail) <> None.
Proof.
  unfold spec_whitelist. destruct w as [|c rest]; [discriminate|].
  destruct (Ascii.eqb_spec c "g") as [->|Hc].
  - intros H. unfold re_match, ext_regex. cbn [append run Chr Many1].
    rewrite Ascii.eqb_refl.
    apply orb_prop in H. destruct H as [H | H];
      [apply orb_prop in H; destruct H as [H | H]|].
    + destruct rest as [|s [|k [|x rest]]]; try discriminate.
      apply andb_prop in H. destruct H as [Hs Hk].
      cbn [append]. rewrite Hs, Hk. discriminate.
    + apply digits1_cons in H. destruct H as (d & ds & -> & Hd).
      cbn [append].
      match goal with
      | |- match ?x with _ => _ end <> None => destruct x; [discriminate|]
      end.
      rewrite Hd.
      match goal with
      | |- match ?x with _ => _ end <> None =>
          destruct x eqn:E; [discriminate|]
      end.
      exfalso. revert E. apply many_total. discriminate.
    + destruct rest as [|m ds]; [discriminate|].
      apply andb_prop in H. destruct H as [Hm H].
      apply Ascii.eqb_eq in Hm. subst m.
      apply digits1_cons in H. destruct H as (d & ds' & -> & Hd).
      cbn -[many]. rewrite Hd.
      match goal with
      | |- match ?x with _ => _ end <> None =>
          destruct x eqn:E; [discriminate|]
      end.
      exfalso. revert E. apply many_total. discriminate.
  - intros H. apply String.eqb_eq in H. rewrite H. discriminate.
Qed.

(** X5: the extension test passes exactly the strings that start with an
    extension of the whitelist; what follows it is not looked at. *)
Theorem extension_test_is_a_prefix_test ext :
  re_match ext_regex ext <> None <-> whitelisted_prefix ext.
Proof.
  split.
  - intros H. destruct (re_match ext_regex ext) as [m|] eqn:E; [|congruence].
    apply re_match_sound in E. destruct E as (s1 & s2 & -> & Hsem).
    exists s1, s2. split; [reflexivity|]. now apply (ext_regex_sem s1 s2 m).
  - intros (w & tail & -> & Hw). now apply whitelist_prefix_passes.
Qed.

(** *** The names that are classified *)

(** X6: a classified name consists of the project, a hyphen, a layer of
    word characters, one further character, an extension of word characters
    that starts like a whitelisted one, and at most a final line feed; a
    name without a hyphen is never classified. *)
Theorem classified_names_have_the_pattern :
  (forall file project layer,
      classify file = Some (project, layer) ->
      exists d e rest,
        file = project ++ "-" ++ layer ++ chr d ++ e ++ rest
        /\ (rest = EmptyString \/ rest = nl)
        /\ all is_dot project = true
        /\ layer <> EmptyString /\ all is_word layer = true
        /\ is_dot d = true
        /\ e <> EmptyString /\ all is_word e = true
        /\ whitelisted_prefix (lower e))
  /\ (forall file, has_char "-" file = false -> classify file = None).
Proof.
  assert (Hshape : forall file project layer,
      classify file = Some (project, layer) ->
      exists d e rest,
        file = project ++ "-" ++ layer ++ chr d ++ e ++ rest
        /\ (rest = EmptyString \/ rest = nl)
        /\ all is_dot project = true
        /\ layer <> EmptyString /\ all is_word layer = true
        /\ is_dot d = true
        /\ e <> EmptyString /\ all is_word e = true
        /\ whitelisted_prefix (lower e)).
  { intros file project layer H. apply classify_sound in H.
    destruct H as (d & e & rest & Hf & Hp & Hl & Hlw & Hd & He & Hew & Hr & Hx).
    exists d, e, rest. repeat split; auto.
    - now apply at_eol_cases.
    - destruct (re_match ext_regex (lower e)) as [m|] eqn:E; [|congruence].
      apply re_match_sound in E. destruct E as (s1 & s2 & E & Hsem).
      exists s1, s2. split; [exact E|]. now apply (ext_regex_sem s1 s2 m). }
  split; [exact Hshape|].
  intros file Hdash.
  destruct (classify file) as [[project layer]|] eqn:E; [|reflexivity].
  apply Hshape in E. destruct E as (d & e & rest & -> & _).
  rewrite has_char_append in Hdash. cbn in Hdash.
  rewrite orb_true_r in Hdash. discriminate.
Qed.

Lemma classified_names_have_the_pattern_witness :
  (exists d e rest,
      "p-F_Cu.GTL" = "p" ++ "-" ++ "F_Cu" ++ chr d ++ e ++ rest
      /\ (rest = EmptyString \/ rest = nl)
      /\ all is_dot "p" = true
      /\ "F_Cu" <> EmptyString /\ all is_word "F_Cu" = true
      /\ is_dot d = true
      /\ e <> EmptyString /\ all is_word e = true
      /\ whitelisted_prefix (lower e))
  /\ classify "readme.txt" = None.
Proof.
  split.
  - apply (proj1 classified_names_have_the_pattern "p-F_Cu.GTL" "p" "F_Cu").
    vm_compute. reflexivity.
  - apply (proj2 classified_names_have_the_pattern "readme.txt").
    vm_compute. reflexivity.
Defined.

(** *** Upper and lower case *)

Lemma lower_char_word c : is_word (lower_char c) = is_word c.
Proof. destruct c as [[] [] [] [] [] [] [] []]; vm_compute; reflexivity. Qed.

Lemma lower_char_idem c : lower_char (lower_char c) = lower_char c.
Proof. destruct c as [[] [] [] [] [] [] [] []]; vm_compute; reflexivity. Qed.

Lemma lower_word s : all is_word (lower s) = all is_word s.
Proof.
  induction s as [|c s IH]; cbn [lower all]; [reflexivity|].
  now rewrite lower_char_word, IH.
Qed.

Lemma lower_idem s : lower (lower s) = lower s.
Proof.
  induction s as [|c s IH]; cbn [lower]; [reflexivity|].
  now rewrite lower_char_idem, IH.
Qed.

(** X7: for a name of the form project, hyphen, layer, dot, extension, the
    case of the extension does not matter, and the name is classified, under
    that project and layer, exactly when the lower-cased extension starts
    with an extension of the whitelist. *)
Theorem extension_case_is_ignored p l e :
  all is_dot p = true ->
  l <> EmptyString -> all is_word l = true ->
  e <> EmptyString -> all is_word e = true ->
  classify (p ++ "-" ++ l ++ "." ++ e)
  = classify (p ++ "-" ++ l ++ "." ++ lower e)
  /\ (classify (p ++ "-" ++ l ++ "." ++ e) = Some (p, l)
      <-> whitelisted_prefix (lower e))
  /\ (classify (p ++ "-" ++ l ++ "." ++ e) = None
      <-> ~ whitelisted_prefix (lower e)).
Proof.
  intros Hp Hl Hlw He Hew.
  assert (He' : lower e <> EmptyString) by (destruct e; [congruence|discriminate]).
  assert (Hew' : all is_word (lower e) = true) by now rewrite lower_word.
  rewrite (classify_expected p l e Hp Hl Hlw He Hew).
  rewrite (classify_expected p l (lower e) Hp Hl Hlw He' Hew').
  rewrite lower_idem.
  assert (Hiff : re_match ext_regex (lower e) <> None
                 <-> whitelisted_prefix (lower e)).
  { split.
    - intros H. destruct (re_match ext_regex (lower e)) as [m|] eqn:E;
        [|congruence].
      apply re_match_sound in E. destruct E as (s1 & s2 & E & Hsem).
      exists s1, s2. split; [exact E|]. now apply (ext_regex_sem s1 s2 m).
    - intros (w & tail & E & Hw). rewrite E.
      now apply whitelist_prefix_passes. }
  split; [reflexivity|].
  destruct (re_match ext_regex (lower e)) as [m|].
  - split; split; try discriminate; intros H.
    + apply Hiff. discriminate.
    + reflexivity.
    + exfalso. apply H, Hiff. discriminate.
  - split; split; try discriminate; intros H.
    + apply Hiff in H. congruence.
    + intros H'. apply Hiff in H'. congruence.
    + reflexivity.
Qed.

Lemma extension_case_is_ignored_witness :
  classify ("my-board" ++ "-" ++ "B_Mask" ++ "." ++ "GBS")
  = classify ("my-board" ++ "-" ++ "B_Mask" ++ "." ++ lower "GBS").
Proof.
  assert (Hl : "B_Mask" <> EmptyString) by discriminate.
  assert (He : "GBS" <> EmptyString) by discriminate.
  apply (proj1 (extension_case_is_ignored "my-board" "B_Mask" "GBS"
                  eq_refl Hl eq_refl He eq_refl)).
Defined.


(** *** Inner layers *)

Lemma overlay_plan_inner layer show_paste :
  layer <> "F_Cu" -> layer <> "B_Cu" -> overlay_plan layer show_paste = [].
Proof.
  intros HF HB. unfold overlay_plan. cbn [existsb].
  apply String.eqb_neq in HF, HB. now rewrite HF, HB.
Qed.

(** X8: for a target other than the top and the bottom copper layer the
    paste flag has no effect, no block is inverted, every block is black or
    copper-coloured, and at most four blocks are emitted: outline, two
    drill layers and the target. *)
Theorem inner_layer_has_no_overlay gerbers layer show_paste :
  layer <> "F_Cu" -> layer <> "B_Cu" ->
  gvp_body gerbers layer show_paste fp_open
  = gvp_body gerbers layer (negb show_paste) fp_open
  /\ (forall b, In b (composed_blocks gerbers layer show_paste) ->
                is_inverted b = false
                /\ (color b = black \/ color b = COLORS.copper))
  /\ (List.length (composed_blocks gerbers layer show_paste) <= 4)%nat.
Proof.
  intros HF HB. split; [|split].
  - rewrite !gvp_body_run. unfold context_plan.
    now rewrite !overlay_plan_inner.
  - intros b Hb. rewrite composed_blocks_eq in Hb. apply In_number in Hb.
    unfold context_plan in Hb. rewrite overlay_plan_inner in Hb by auto.
    cbn [app select] in Hb.
    destruct b as [f i c inv]. unfold unnumbered in Hb. cbn [file_name color is_inverted] in *.
    destruct (Dict.get gerbers "Edge_Cuts"), (Dict.get gerbers "PTH"),
      (Dict.get gerbers "NPTH"), (Dict.get gerbers layer);
      cbn [app In] in Hb;
      repeat (destruct Hb as [Hb | Hb]; [inversion Hb; auto|]);
      destruct Hb.
  - rewrite composed_blocks_eq, number_length, length_app.
    unfold context_plan. rewrite overlay_plan_inner by auto.
    cbn [app select].
    destruct (Dict.get gerbers "Edge_Cuts"), (Dict.get gerbers "PTH"),
      (Dict.get gerbers "NPTH"), (Dict.get gerbers layer);
      cbn [List.length]; lia.
Qed.

Lemma inner_layer_has_no_overlay_witness :
  gvp_body demo_gerbers "In1_Cu" true fp_open
  = gvp_body demo_gerbers "In1_Cu" (negb true) fp_open.
Proof.
  assert (HF : "In1_Cu" <> "F_Cu") by discriminate.
  assert (HB : "In1_Cu" <> "B_Cu") by discriminate.
  apply (proj1 (inner_layer_has_no_overlay demo_gerbers "In1_Cu" true HF HB)).
Defined.

(** *** The keys consulted *)

Lemma select_ext g1 g2 plan :
  (forall x, In x plan -> Dict.get g1 (fst (fst x)) = Dict.get g2 (fst (fst x))) ->
  select g1 plan = select g2 plan.
Proof.
  induction plan as [|[[key c] inv] plan IH]; intros H; cbn [select];
    [reflexivity|].
  pose proof (H (key, c, inv) (or_introl eq_refl)) as Hk. cbn [fst] in Hk.
  rewrite Hk, IH; [reflexivity|]. intros x Hx. apply H. now right.
Qed.

Lemma context_plan_keys layer show_paste x :
  In x (context_plan layer show_paste) ->
  In (fst (fst x)) (consulted_keys layer).
Proof.
  unfold context_plan, overlay_plan, consulted_keys.
  destruct (existsb (String.eqb layer) ["F_Cu"; "B_Cu"]), show_paste;
    cbn [app In]; intros H;
    repeat (destruct H as [<- | H]; [cbn [fst]; auto 10|]); destruct H.
Qed.

(** X9: the composition depends on the mapping only through the keys it
    consults: outline, drill layers, the target and, for the top or bottom
    copper layer, paste, silkscreen and mask of that side. *)
Theorem composition_reads_only_its_keys g1 g2 layer show_paste file fs :
  (forall k, In k (consulted_keys layer) -> Dict.get g1 k = Dict.get g2 k) ->
  gvp_body g1 layer show_paste fp_open = gvp_body g2 layer show_paste fp_open
  /\ generate_gerbv_project file g1 layer show_paste fs
     = generate_gerbv_project file g2 layer show_paste fs.
Proof.
  intros H.
  assert (E : gvp_body g1 layer show_paste fp_open
              = gvp_body g2 layer show_paste fp_open).
  { rewrite !gvp_body_run.
    rewrite (select_ext g1 g2 (context_plan layer show_paste)).
    - rewrite (H layer); [reflexivity|].
      unfold consulted_keys. cbn [app In]. auto.
    - intros x Hx. apply H. now apply (context_plan_keys layer show_paste). }
  split; [exact E|]. rewrite !generate_gerbv_project_run. now rewrite E.
Qed.

Lemma composition_reads_only_its_keys_witness :
  gvp_body demo_gerbers "B_Cu" true fp_open
  = gvp_body [("B_Cu", "d/p-B_Cu.gbl"); ("NPTH", "d/p-NPTH.drl");
              ("PTH", "d/p-PTH.drl"); ("Edge_Cuts", "d/p-Edge_Cuts.gm1");
              ("F_Cu", "elsewhere.gtl")]
             "B_Cu" true fp_open.
Proof.
  assert (H : forall k, In k (consulted_keys "B_Cu") ->
                Dict.get demo_gerbers k
                = Dict.get [("B_Cu", "d/p-B_Cu.gbl"); ("NPTH", "d/p-NPTH.drl");
                            ("PTH", "d/p-PTH.drl");
                            ("Edge_Cuts", "d/p-Edge_Cuts.gm1");
                            ("F_Cu", "elsewhere.gtl")] k).
  { intros k Hk. vm_compute in Hk.
    repeat (destruct Hk as [<- | Hk]; [reflexivity|]). destruct Hk. }
  apply (proj1 (composition_reads_only_its_keys
                  demo_gerbers _ "B_Cu" true "f" Dict.empty H)).
Defined.

(** *** No file twice *)

Lemma select_app g p1 p2 :
  select g (List.app p1 p2) = List.app (select g p1) (select g p2).
Proof.
  induction p1 as [|[[key c] inv] p1 IH]; cbn [app select]; [reflexivity|].
  destruct (Dict.get g key); cbn [app]; now rewrite IH.
Qed.

Lemma In_select_key g plan f :
  In f (map key_of (select g plan)) ->
  exists k, In k (map key_of plan) /\ Dict.get g k = Some f.
Proof.
  induction plan as [|[[key c] inv] plan IH]; cbn [select map In]; [tauto|].
  destruct (Dict.get g key) eqn:E; cbn [map In].
  - intros [<- | H].
    + exists key. split; [now left | exact E].
    + destruct (IH H) as (k & Hk & Hg). exists k. split; [now right | exact Hg].
  - intros H. destruct (IH H) as (k & Hk & Hg).
    exists k. split; [now right | exact Hg].
Qed.

Lemma select_NoDup g plan :
  NoDup (map key_of plan) -> distinct_files g (map key_of plan) ->
  NoDup (map key_of (select g plan)).
Proof.
  induction plan as [|[[key c] inv] plan IH]; cbn [select map];
    intros Hnd Hinj; [constructor|].
  inversion Hnd as [|? ? Hnot Hnd']; subst.
  assert (Hinj' : distinct_files g (map key_of plan)).
  { intros k1 k2 f H1 H2. apply Hinj; now right. }
  destruct (Dict.get g key) as [f|] eqn:E; [|now apply IH].
  cbn [map]. constructor; [|now apply IH].
  intros Hin. apply In_select_key in Hin. destruct Hin as (k & Hk & Hg).
  apply Hnot. unfold key_of at 1. cbn [fst].
  rewrite (Hinj key k f); auto; [now left | now right].
Qed.

Lemma file_names_number i l : map file_name (number i l) = map key_of l.
Proof.
  revert i. induction l as [|[[f c] inv] l IH]; intros i; cbn [number map];
    [reflexivity|].
  now rewrite IH.
Qed.

Lemma plan_keys layer show_paste x :
  In x (map key_of (List.app (context_plan layer show_paste)
                             [(layer, COLORS.copper, false)])) ->
  In x (consulted_keys layer).
Proof.
  rewrite map_app, in_app_iff. intros [H | H].
  - apply in_map_iff in H. destruct H as (y & <- & Hy).
    now apply (context_plan_keys layer show_paste).
  - destruct H as [<- | []]. unfold consulted_keys. cbn [app In key_of fst].
    auto.
Qed.

Lemma plan_keys_NoDup layer show_paste :
  ~ In layer ["Edge_Cuts"; "PTH"; "NPTH"] ->
  NoDup (map key_of (List.app (context_plan layer show_paste)
                              [(layer, COLORS.copper, false)])).
Proof.
  intros Hn. unfold context_plan, overlay_plan. cbn [existsb orb].
  destruct (String.eqb_spec layer "F_Cu") as [->|HF];
    [|destruct (String.eqb_spec layer "B_Cu") as [->|HB]].
  - destruct show_paste; apply NoDup_by_nodup; vm_compute; reflexivity.
  - destruct show_paste; apply NoDup_by_nodup; vm_compute; reflexivity.
  - cbn [orb app map key_of fst]. cbn [In] in Hn.
    repeat constructor; cbn [In]; intuition (try discriminate; eauto).
Qed.

(** X10: when the target is not the outline or a drill layer and the
    mapping sends the consulted keys to distinct files, no file occurs in
    two blocks. *)
Theorem no_file_is_emitted_twice gerbers layer show_paste :
  ~ In layer ["Edge_Cuts"; "PTH"; "NPTH"] ->
  distinct_files gerbers (consulted_keys layer) ->
  NoDup (map file_name (composed_blocks gerbers layer show_paste)).
Proof.
  intros Hn Hinj.
  assert (E : composed_blocks gerbers layer show_paste
              = number 0 (select gerbers
                            (List.app (context_plan layer show_paste)
                                      [(layer, COLORS.copper, false)]))).
  { rewrite composed_blocks_eq, select_app. cbn [select].
    now destruct (Dict.get gerbers layer). }
  rewrite E, file_names_number. apply select_NoDup.
  - now apply plan_keys_NoDup.
  - intros k1 k2 f H1 H2. apply Hinj; now apply (plan_keys layer show_paste).
Qed.

Lemma no_file_is_emitted_twice_witness :
  NoDup (map file_name (composed_blocks demo_gerbers "F_Cu" true)).
Proof.
  apply no_file_is_emitted_twice.
  - cbn [In]. intuition discriminate.
  - intros k1 k2 f H1 H2. vm_compute in H1, H2.
    repeat (destruct H1 as [<- | H1]);
      repeat (destruct H2 as [<- | H2]);
      try contradiction; vm_compute; congruence.
Defined.


(** *** The driver raises only when a renderer cannot be started *)



(** *** A renderer that cannot be started *)

Lemma render_loop_abort a run : forall files n f w,
  nth_error files n = Some f ->
  run (List.length (spawned w) + n)%nat (render_argv a f) = None ->
  (forall i argv, (i < n)%nat ->
                  run (List.length (spawned w) + i)%nat argv <> None) ->
  exists out,
    for_in files (render a run) tt w
    = (Raise OSError,
       mk_world (fs w) out
                (List.app (spawned w)
                          (map (render_argv a) (firstn n files)))).
Proof.
  induction files as [|f0 files IH]; intros n f w Hnth Hfail Hok.
  - destruct n; discriminate.
  - cbn [for_in]. unfold bind at 1. unfold render at 1.
    fold (image_path a f0). fold (render_argv a f0).
    unfold bind, print, popen_wait. cbn [fs stdout spawned].
    destruct n as [|n]; cbn [nth_error] in Hnth.
    + inversion Hnth; subst. rewrite Nat.add_0_r in Hfail. rewrite Hfail.
      cbn [firstn map]. rewrite app_nil_r. eauto.
    + destruct (run (List.length (spawned w)) (render_argv a f0))
        as [code|] eqn:E.
      * assert (Hlen : List.length (snoc (spawned w) (render_argv a f0))
                       = S (List.length (spawned w))).
        { unfold snoc. rewrite length_app. cbn. lia. }
        destruct (negb (code =? 0)%Z); cbn [ret];
          match goal with
          | |- context [for_in files (render a run) tt ?w'] =>
              destruct (IH n f w') as (out & Hout);
                [exact Hnth
                | cbn [spawned]; rewrite Hlen;
                  now rewrite <- Nat.add_succ_comm in Hfail
                | intros i argv Hi; cbn [spawned]; rewrite Hlen;
                  replace (S (List.length (spawned w)) + i)%nat
                    with (List.length (spawned w) + S i)%nat by lia;
                  apply Hok; lia
                | rewrite Hout; cbn [spawned fs firstn map];
                  unfold snoc; rewrite <- app_assoc; eauto ]
          end.
      * exfalso. apply (Hok 0%nat (render_argv a f0)); [lia|].
        now rewrite Nat.add_0_r.
Qed.

(** X12: when the n-th renderer process is the first that cannot be
    started, the driver stops there with exit status 1: exactly the n
    earlier processes have run, and all project files have been written. *)
Theorem launch_failure_aborts a listing run n f :
  nth_error (gvp_files a listing) n = Some f ->
  run n (render_argv a f) = None ->
  (forall i argv, (i < n)%nat -> run i argv <> None) ->
  let r := main a listing run world0 in
  fst r = Raise OSError
  /\ exit_status (fst r) = 1%Z
  /\ spawned (snd r) = map (render_argv a) (firstn n (gvp_files a listing))
  /\ fs (snd r) = fs (snd (main a listing (fun _ _ => Some 0%Z) world0)).
Proof.
  intros Hnth Hfail Hok r.
  assert (Hfs : fs (snd r)
                = fs (snd (main a listing (fun _ _ => Some 0%Z) world0)))
    by (unfold r; now rewrite !main_fs).
  assert (H : fst r = Raise OSError
              /\ spawned (snd r)
                 = map (render_argv a) (firstn n (gvp_files a listing))).
  { unfold r, main, gvp_files, find_gerber_files in *.
    destruct (find_gerber_files_out (path a) listing) as [all found].
    cbn [fst] in *. unfold bind. rewrite print_all_run, compose_all_run.
    match goal with
    | |- context [for_in ?files (render a run) tt ?w] =>
        destruct (render_loop_abort a run files n f w) as (out & Hout)
    end.
    - exact Hnth.
    - rewrite spawned_all_effects. cbn [spawned List.length]. exact Hfail.
    - intros i argv Hi. rewrite spawned_all_effects. cbn [spawned List.length].
      now apply Hok.
    - rewrite Hout, spawned_all_effects. cbn [fst snd spawned app]. auto. }
  destruct H as [H1 H2]. rewrite H1, H2. cbn [exit_status]. auto.
Qed.

Lemma launch_failure_aborts_witness :
  let r := main demo_args demo_listing demo_run_missing world0 in
  fst r = Raise OSError
  /\ exit_status (fst r) = 1%Z
  /\ spawned (snd r)
     = map (render_argv demo_args) (firstn 1 (gvp_files demo_args demo_listing))
  /\ fs (snd r)
     = fs (snd (main demo_args demo_listing (fun _ _ => Some 0%Z) world0)).
Proof.
  apply (launch_failure_aborts demo_args demo_listing demo_run_missing
                               1%nat "d/p-bot.gvp").
  - vm_compute. reflexivity.
  - reflexivity.
  - intros i argv Hi. assert (i = 0%nat) as -> by lia. discriminate.
Defined.

(** *** The image path *)

Lemma prefix_gvp_no c s :
  (Ascii.eqb c "." &&
   match s with
   | String c' _ => Ascii.eqb c' "g"
   | EmptyString => false
   end) = false ->
  String.prefix ".gvp" (String c s) = false.
Proof.
  intros H. cbn [String.prefix].
  destruct (ascii_dec "." c) as [<-|]; [|reflexivity].
  cbn [Ascii.eqb Bool.eqb andb] in H.
  destruct s as [|c' s]; cbn [String.prefix]; [reflexivity|].
  destruct (ascii_dec "g" c') as [<-|]; [discriminate H | reflexivity].
Qed.

Lemma has_dot_g_dot x : has_dot_g (x ++ ".") = has_dot_g x.
Proof.
  induction x as [|c x IH]; [reflexivity|].
  cbn [append has_dot_g]. rewrite IH. destruct x; [|reflexivity].
  cbn. now rewrite andb_false_r.
Qed.

Lemma replace_extension x new :
  has_dot_g x = false ->
  replace (x ++ ".gvp") ".gvp" new = x ++ new.
Proof.
  rewrite <- has_dot_g_dot.
  unfold replace. induction x as [|c x IH]; intros H.
  - cbn. now rewrite append_nil_r.
  - cbn [append has_dot_g] in H. apply orb_false_elim in H.
    destruct H as [Hc Hx].
    cbn [append replace_from]. rewrite prefix_gvp_no.
    + now rewrite IH.
    + destruct x as [|c' x]; [|exact Hc].
      cbn [append] in *. rewrite andb_false_r in *. 
      destruct (Ascii.eqb c "."); reflexivity.
Qed.

(** X13: for a project file whose path has no dot directly followed by a
    [g] before its extension, the image path is that path with the
    extension replaced by the export format, or its base name joined to the
    output directory when one is given. *)
Theorem image_takes_the_name_of_the_project_file a x :
  has_dot_g x = false ->
  image_path a (x ++ ".gvp")
  = match output a with
    | Some o => path_join o (basename (x ++ "." ++ format a))
    | None => x ++ "." ++ format a
    end.
Proof.
  intros H. unfold image_path. now rewrite (replace_extension x _ H).
Qed.

Lemma image_takes_the_name_of_the_project_file_witness :
  image_path (mk_args "d" "svg" 300 (Some "out") "gerbv" false)
             ("../boards/d" ++ "/p-top" ++ ".gvp")
  = "out/p-top.svg".
Proof.
  rewrite <- append_assoc.
  rewrite (image_takes_the_name_of_the_project_file _ ("../boards/d" ++ "/p-top"));
    reflexivity.
Defined.

(** *** The layer files of the project files *)

(** X14: every layer file named in a composition of a classified project
    is the joined path of a directory entry that classifies to that
    project. *)
Theorem layer_files_are_directory_entries a listing project gerbers layer flag b :
  Dict.get (find_gerber_files (path a) listing) project = Some gerbers ->
  In b (composed_blocks gerbers layer flag) ->
  exists entry l,
    In entry listing
    /\ classify entry = Some (project, l)
    /\ file_name b = path_join (path a) entry.
Proof.
  intros Hg Hb. rewrite composed_blocks_eq in Hb.
  apply In_number in Hb. unfold unnumbered in Hb.
  assert (Hkey : exists l, Dict.get gerbers l = Some (file_name b)).
  { apply in_app_or in Hb. destruct Hb as [Hb | Hb].
    - apply In_select in Hb. destruct Hb as (key & _ & Hk).
      cbn [fst] in Hk. eauto.
    - destruct (Dict.get gerbers layer) as [f|] eqn:E; [|destruct Hb].
      destruct Hb as [Hb | []]. inversion Hb; subst. eauto. }
  destruct Hkey as (l & Hl).
  assert (Hl2 : lookup2 (find_gerber_files (path a) listing) project l
                = Some (file_name b)).
  { unfold lookup2. now rewrite Hg. }
  unfold find_gerber_files, find_gerber_files_out in Hl2.
  apply fold_find_origin in Hl2.
  destruct Hl2 as [Hl2 | (f & Hin & Hc & Hv)]; [discriminate Hl2|].
  exists f, l. repeat split; auto.
  apply (Permutation_in _ (Permutation_sym (sorted_perm listing))), Hin.
Qed.

Lemma layer_files_are_directory_entries_witness :
  exists entry l,
    In entry demo_listing
    /\ classify entry = Some ("p", l)
    /\ "d/p-F_Mask.gts" = path_join "d" entry.
Proof.
  apply (layer_files_are_directory_entries
           demo_args demo_listing "p"
           [("B_Cu", "d/p-B_Cu.gbl"); ("F_Cu", "d/p-F_Cu.gtl");
            ("F_Mask", "d/p-F_Mask.gts"); ("In1_Cu", "d/p-In1_Cu.g2")]
           "F_Cu" false
           (mk_block "d/p-F_Mask.gts" 0 COLORS.soldermask true)).
  - vm_compute. reflexivity.
  - vm_compute. auto.
Defined.

(** *** What is printed *)

(** X15: when every renderer process can be started, the driver prints the
    lines of the classifier first, then one line per project file written,
    then the lines of the render loop. *)
Theorem output_follows_the_phases a listing run :
  (forall n argv, run n argv <> None) ->
  stdout (snd (main a listing run world0))
  = List.app (map found_line (filter accepted (sorted listing)))
      (List.app
         (map (fun pj => "Writing '" ++ fst pj ++ "-" ++ snd pj ++ ".gvp" ++ "'")
              (all_jobs (find_gerber_files (path a) listing)))
         (render_log a run 0 (gvp_files a listing))).
Proof.
  intros Hrun. rewrite (main_run a listing run Hrun). cbn [snd stdout].
  unfold find_gerber_files_out. rewrite fold_find_out. cbn [snd app].
  f_equal. f_equal. apply map_ext. intros [p n]. unfold gvp_name. cbn [fst snd].
  now rewrite !append_assoc.
Qed.

Lemma output_follows_the_phases_witness :
  stdout (snd (main demo_args ["q-F_Cu.gtl"; "notes"] demo_run world0))
  = [ "Found 'q-F_Cu.gtl'"; "Writing 'q-top.gvp'";
      "Generating 'q-top.png' ..."; " ERROR! Gerbv failed with 2!" ].
Proof.
  assert (Hrun : forall n argv, demo_run n argv <> None).
  { intros n argv. unfold demo_run. destruct (Nat.eqb n 0); discriminate. }
  rewrite (output_follows_the_phases demo_args _ demo_run Hrun).
  vm_compute. reflexivity.
Defined.
